(** * Quiz platform backend: grading, attempt lifecycle, question analytics

    A shallow embedding of the decision logic of
    - [routes/student.js]: [GET /quizzes/:subject_id],
      [GET /quizzes/details/:id], [POST /quizzes/:id/start],
      [POST /quizzes/:id/submit], [GET /scores];
    - the teacher routes [POST /quizzes/import-questions] and
      [GET /analysis/quiz/:quiz_id/questions].

    Conventions of the embedding.
    - JavaScript values that reach the routes come from JSON (request bodies,
      JSON and TEXT columns), so a value is a JSON value or [undefined].
    - Strings are ASCII texts ([Stdlib.Strings.String]); [trim] removes the
      ASCII white space and [toLowerCase] maps [A-Z] to [a-z].
    - Numbers are the integers: [JNum z] prints as its decimal text, and
      [parseInt] returns an exact integer.  This is JavaScript's arithmetic
      on the safe integers, of magnitude below 2^53; a longer numeral, which
      JavaScript rounds to a double, and a fraction are outside the
      embedding.  The quotient of the percentage is taken over the
      rationals, and [toFixed(2)] rounds that exact quotient, half away
      from zero; the double of the code can fall on the other side of a
      tie, one hundredth away.
    - [try]/[catch], [return] from a callback and thrown errors are kept as
      a completion; a running total ([totalScore], [correctCount]) is a
      state threaded through the callback.
    - A route is a program over database queries, interpreted against the
      tables; an interleaved run lets other requests act between queries.
      The one error of a query is the duplicate key of an [INSERT]: ids
      are integers and stored values are taken to fit their columns, so a
      query that the server refuses for another reason is outside the
      embedding. *)

From Stdlib Require Import ZArith List String Ascii Bool Lia.
From Stdlib Require Import DecimalString DecimalNat DecimalZ.
From Stdlib Require Import QArith Qround Qminmax Lqa.
Import ListNotations.

Open Scope string_scope.
Open Scope Z_scope.

(** ** Completions *)

Inductive error : Type :=
| TypeError
| SyntaxError
| ER_DUP_ENTRY.

(** The outcome of running a piece of a function body. *)
Inductive completion (A : Type) : Type :=
| Normal (a : A)
| Return
| Throw (e : error).
Arguments Normal {A} a.
Arguments Return {A}.
Arguments Throw {A} e.

Definition cbind {A B} (c : completion A) (k : A -> completion B) : completion B :=
  match c with
  | Normal a => k a
  | Return => Return
  | Throw e => Throw e
  end.

(** ** JavaScript values *)

Module Js.

#[local] Unset Elimination Schemes.
Inductive value : Type :=
| JUndefined
| JNull
| JBool (b : bool)
| JNum (z : Z)
| JStr (s : string)
| JArr (elems : list value)
| JObj (props : list (string * value)).
#[local] Set Elimination Schemes.

(** [ToBoolean]. *)
Definition truthy (v : value) : bool :=
  match v with
  | JUndefined | JNull => false
  | JBool b => b
  | JNum z => negb (z =? 0)
  | JStr s => negb (s =? EmptyString)%string
  | JArr _ | JObj _ => true
  end.

Definition is_string (v : value) : bool :=
  match v with JStr _ => true | _ => false end.

Definition isArray (v : value) : bool :=
  match v with JArr _ => true | _ => false end.

(** [typeof v === 'object'] *)
Definition is_object (v : value) : bool :=
  match v with JNull | JArr _ | JObj _ => true | _ => false end.

(** [Number.prototype.toString] on an integer, also the property key of a
    numeric subscript. *)
Definition Z_toString (z : Z) : string := NilZero.string_of_int (Z.to_int z).

Definition nat_toString (n : nat) : string := Z_toString (Z.of_nat n).

Fixpoint assoc (k : string) (props : list (string * value)) : option value :=
  match props with
  | [] => None
  | (k', v) :: rest => if (k =? k')%string then Some v else assoc k rest
  end.

Definition has_own (k : string) (props : list (string * value)) : bool :=
  match assoc k props with Some _ => true | None => false end.

Fixpoint join (sep : string) (parts : list string) : string :=
  match parts with
  | [] => EmptyString
  | [p] => p
  | p :: rest => p ++ sep ++ join sep rest
  end.

Fixpoint sequence {A} (cs : list (completion A)) : completion (list A) :=
  match cs with
  | [] => Normal []
  | c :: rest =>
      cbind c (fun a => cbind (sequence rest) (fun l => Normal (a :: l)))
  end.

(** [v.toString()].  [null] and [undefined] have no properties; an array
    joins the texts of its elements with [","], an absent element giving
    the empty text; an object prints as ["[object Object]"] unless it has
    an own [toString] property, which, coming from JSON, is not callable. *)
Fixpoint toString (v : value) : completion string :=
  match v with
  | JUndefined | JNull => Throw TypeError
  | JBool true => Normal "true"
  | JBool false => Normal "false"
  | JNum z => Normal (Z_toString z)
  | JStr s => Normal s
  | JArr elems =>
      cbind
        (sequence
           (map (fun e => match e with
                          | JUndefined | JNull => Normal EmptyString
                          | _ => toString e
                          end) elems))
        (fun parts => Normal (join "," parts))
  | JObj props =>
      if has_own "toString" props then Throw TypeError
      else Normal "[object Object]"
  end.

(** *** String primitives *)

Definition is_space (c : ascii) : bool :=
  let n := nat_of_ascii c in
  ((n =? 32) || ((9 <=? n) && (n <=? 13)))%nat.

Fixpoint trimStart (s : string) : string :=
  match s with
  | EmptyString => EmptyString
  | String c rest => if is_space c then trimStart rest else s
  end.

Fixpoint trimEnd (s : string) : string :=
  match s with
  | EmptyString => EmptyString
  | String c rest =>
      let rest' := trimEnd rest in
      if is_space c && (rest' =? EmptyString)%string then EmptyString
      else String c rest'
  end.

Definition trim (s : string) : string := trimEnd (trimStart s).

Definition lower (c : ascii) : ascii :=
  let n := nat_of_ascii c in
  if ((65 <=? n) && (n <=? 90))%nat then ascii_of_nat (n + 32) else c.

Fixpoint toLowerCase (s : string) : string :=
  match s with
  | EmptyString => EmptyString
  | String c rest => String (lower c) (toLowerCase rest)
  end.

(** *** [parseInt] with no radix argument *)

Definition digit (radix : Z) (c : ascii) : option Z :=
  let n := Z.of_nat (nat_of_ascii c) in
  let d :=
    if (48 <=? n) && (n <=? 57) then Some (n - 48)
    else if (97 <=? n) && (n <=? 122) then Some (n - 87)
    else if (65 <=? n) && (n <=? 90) then Some (n - 55)
    else None in
  match d with
  | Some k => if k <? radix then Some k else None
  | None => None
  end.

(** The longest prefix of digits, read most significant first; [None] when
    there is no digit at all. *)
Fixpoint digits (radix : Z) (acc : option Z) (s : string) : option Z :=
  match s with
  | EmptyString => acc
  | String c rest =>
      match digit radix c with
      | Some d =>
          digits radix
            (Some (match acc with Some a => a * radix + d | None => d end))
            rest
      | None => acc
      end
  end.

Definition strip_sign (s : string) : Z * string :=
  match s with
  | String "-" rest => (-1, rest)
  | String "+" rest => (1, rest)
  | _ => (1, s)
  end.

Definition strip_hex (s : string) : Z * string :=
  match s with
  | String "0" (String "x" rest) => (16, rest)
  | String "0" (String "X" rest) => (16, rest)
  | _ => (10, s)
  end.

(** [None] stands for [NaN]. *)
Definition parseInt (s : string) : option Z :=
  let '(sign, s1) := strip_sign (trimStart s) in
  let '(radix, s2) := strip_hex s1 in
  match digits radix None s2 with
  | Some m => Some (sign * m)
  | None => None
  end.

(** *** Property access *)

(** The array index a property key denotes, if it is the canonical decimal
    text of a natural number. *)
Definition array_index (k : string) : option nat :=
  match NilZero.uint_of_string k with
  | Some d =>
      let n := Z.of_uint d in
      if (Z_toString n =? k)%string then Some (Z.to_nat n) else None
  | None => None
  end.

Definition of_option (o : option value) : value :=
  match o with Some v => v | None => JUndefined end.

Fixpoint char_at (s : string) (n : nat) : option value :=
  match s, n with
  | EmptyString, _ => None
  | String c _, O => Some (JStr (String c EmptyString))
  | String _ rest, S n' => char_at rest n'
  end.

(** [v[k]] for a key [k] that names no inherited property: the routes only
    subscript with integers and with ["question-<i>"]. *)
Definition get (v : value) (k : string) : completion value :=
  match v with
  | JUndefined | JNull => Throw TypeError
  | JBool _ | JNum _ => Normal JUndefined
  | JStr s =>
      match array_index k with
      | Some n => Normal (of_option (char_at s n))
      | None => Normal JUndefined
      end
  | JArr elems =>
      match array_index k with
      | Some n => Normal (of_option (nth_error elems n))
      | None => Normal JUndefined
      end
  | JObj props => Normal (of_option (assoc k props))
  end.

(** [v[n]] for a number [n]: the key is the text of the number. *)
Definition get_num (v : value) (n : Z) : completion value :=
  get v (Z_toString n).

(** [a || b], the right operand evaluated only when needed. *)
Definition or_else (a b : completion value) : completion value :=
  cbind a (fun v => if truthy v then Normal v else b).

End Js.
Import Js.

(** ** Callback bodies with a running total

    [totalScore] in the submit route and [correctCount] in the analysis
    route are numbers updated from inside a [forEach] callback.  An update
    made before an error is thrown stays, so the total is threaded as a
    state next to the completion. *)

Definition M (A : Type) : Type := Z -> completion A * Z.

Definition ret {A} (a : A) : M A := fun s => (Normal a, s).

Definition bind {A B} (m : M A) (k : A -> M B) : M B :=
  fun s =>
    match m s with
    | (Normal a, s') => k a s'
    | (Return, s') => (Return, s')
    | (Throw e, s') => (Throw e, s')
    end.

Declare Scope m_scope.
Delimit Scope m_scope with M.
Notation "x <- c ;; k" := (bind c (fun x => k))
  (at level 61, c at next level, right associativity) : m_scope.
Notation "c ;; k" := (bind c (fun _ => k))
  (at level 61, right associativity) : m_scope.

Definition lift {A} (c : completion A) : M A := fun s => (c, s).

(** [total += n] *)
Definition add (n : Z) : M unit := fun s => (Normal tt, s + n).

(** [return;] *)
Definition return_ {A} : M A := lift Return.

(** [console.warn], [console.error]: no effect on the data. *)
Definition console_log : M unit := ret tt.

(** [try { body } catch (e) { handler e }] *)
Definition try_catch {A} (body : M A) (handler : error -> M A) : M A :=
  fun s =>
    match body s with
    | (Throw e, s') => handler e s'
    | r => r
    end.

(** The boundary of a callback: [return] ends the callback only. *)
Definition callback (body : M unit) : M unit :=
  fun s =>
    match body s with
    | (Return, s') => (Normal tt, s')
    | r => r
    end.

(** [xs.forEach((x, index) => f x index)], counting from [index]. *)
Fixpoint forEach {A} (f : A -> nat -> M unit) (xs : list A) (index : nat)
  : M unit :=
  match xs with
  | [] => ret tt
  | x :: rest => (f x index ;; forEach f rest (S index))%M
  end.

(** ** Rows of the tables *)

Record Question : Type := {
  question_id : Z;
  question_quiz_id : Z;
  question_type : string;
  marks : Z;
  options : value;
  correct_answer : value
}.

Record Quiz : Type := {
  quiz_id : Z;
  subject_id : Z;
  total_marks : option Z;
  start_date : option Z;
  end_date : option Z;
  is_active : bool
}.

Record Attempt : Type := {
  attempt_id : Z;
  attempt_quiz_id : Z;
  student_id : Z;
  submitted_at : option Z;
  score : Z;
  percentage : Q;
  answers : value
}.

(** ** Grading and analysis *)

Section Grading.

(** [JSON.parse] of the runtime; [None] when it throws a [SyntaxError]. *)
Variable JSON_parse : string -> option value.

Definition parse (text : value) : completion value :=
  match text with
  | JStr s =>
      match JSON_parse s with
      | Some v => Normal v
      | None => Throw SyntaxError
      end
  | _ => Throw SyntaxError
  end.

(** [answers[index] || answers[index.toString()] ||
     answers[`question-${index}`] || ''] *)
Definition lookupAnswer (answers : value) (index : nat) : completion value :=
  or_else
    (or_else
       (or_else (get_num answers (Z.of_nat index))
                (get answers (nat_toString index)))
       (get answers ("question-" ++ nat_toString index)))
    (Normal (JStr EmptyString)).

(** [v.toString().trim().toLowerCase()] *)
Definition normalize (v : value) : completion string :=
  cbind (toString v) (fun s => Normal (toLowerCase (trim s))).

(** [question.correct_answer
       ? question.correct_answer.toString().trim().toLowerCase() : ''] *)
Definition normalizedCorrect (question : Question) : completion string :=
  if truthy (correct_answer question)
  then normalize (correct_answer question)
  else Normal EmptyString.

(** [typeof question.options === 'string'
       ? JSON.parse(question.options) : question.options] *)
Definition parsedOptions (question : Question) : completion value :=
  if is_string (options question)
  then parse (options question)
  else Normal (options question).

Local Open Scope m_scope.

(** The body of the [try] block of the [questions.forEach] callback of
    [POST /quizzes/:id/submit]. *)
Definition grade_body (answers : value) (question : Question) (index : nat)
  : M unit :=
  studentAnswer <- lift (lookupAnswer answers index) ;;
  nonblank <-
    (if truthy studentAnswer
     then s <- lift (toString studentAnswer) ;;
          ret (negb (trim s =? EmptyString)%string)
     else ret false) ;;
  if nonblank : bool then
    normalizedStudentAnswer <- lift (normalize studentAnswer) ;;
    normalizedCorrectAnswer <- lift (normalizedCorrect question) ;;
    if (normalizedCorrectAnswer =? EmptyString)%string then
      console_log ;; return_
    else if (question_type question =? "mcq")%string
            && truthy (options question) then
      try_catch
        (opts <- lift (parsedOptions question) ;;
         if (normalizedStudentAnswer =? normalizedCorrectAnswer)%string then
           add (marks question)
         else
           match parseInt normalizedCorrectAnswer with
           | Some correctOptionIndex =>
               opt <- lift (get_num opts correctOptionIndex) ;;
               if truthy opt then
                 opt' <- lift (get_num opts correctOptionIndex) ;;
                 correctOptionText <- lift (normalize opt') ;;
                 if (normalizedStudentAnswer =? correctOptionText)%string
                 then add (marks question)
                 else ret tt
               else ret tt
           | None => ret tt
           end)
        (fun parseError => console_log)
    else
      if (normalizedStudentAnswer =? normalizedCorrectAnswer)%string
      then add (marks question)
      else ret tt
  else ret tt.

(** The callback: the body inside [try], an error logged by [catch]. *)
Definition grade_question (answers : value) (question : Question)
  (index : nat) : M unit :=
  callback (try_catch (grade_body answers question index)
                      (fun error => console_log)).

(** [let totalScore = 0; questions.forEach(...)] *)
Definition grade_run (questions : list Question) (answers : value)
  : completion unit * Z :=
  forEach (grade_question answers) questions 0%nat 0.

Definition totalScore (questions : list Question) (answers : value) : Z :=
  snd (grade_run questions answers).

(** The marks one question adds to the total. *)
Definition credit (answers : value) (question : Question) (index : nat) : Z :=
  snd (grade_question answers question index 0).

(** [attempt.answers] as the analysis reads it: a text is parsed, and a
    parse error skips the attempt; an object is taken as it is; anything
    else leaves the empty object. *)
Definition attemptAnswers (stored : value) : M value :=
  if truthy stored then
    if is_string stored then
      try_catch (lift (parse stored))
                (fun parseError => console_log ;; return_)
    else if is_object stored then ret stored
    else ret (JObj [])
  else ret (JObj []).

(** The body of the [try] block of the [attempts.forEach] callback of
    [GET /analysis/quiz/:quiz_id/questions], for the question at [index]. *)
Definition analyze_body (question : Question) (index : nat) (stored : value)
  : M unit :=
  answers <- attemptAnswers stored ;;
  studentAnswer <- lift (lookupAnswer answers index) ;;
  if truthy studentAnswer then
    normalizedStudentAnswer <- lift (normalize studentAnswer) ;;
    normalizedCorrectAnswer <- lift (normalizedCorrect question) ;;
    if (question_type question =? "mcq")%string
       && truthy (options question) then
      try_catch
        (opts <- lift (parsedOptions question) ;;
         if (normalizedStudentAnswer =? normalizedCorrectAnswer)%string then
           add 1
         else if isArray opts then
           match parseInt normalizedCorrectAnswer with
           | Some correctOptionIndex =>
               opt <- lift (get_num opts correctOptionIndex) ;;
               if truthy opt then
                 opt' <- lift (get_num opts correctOptionIndex) ;;
                 correctOptionText <- lift (normalize opt') ;;
                 if (normalizedStudentAnswer =? correctOptionText)%string
                 then add 1
                 else ret tt
               else ret tt
           | None => ret tt
           end
         else ret tt)
        (fun optionError =>
           if (normalizedStudentAnswer =? normalizedCorrectAnswer)%string
           then add 1
           else ret tt)
    else
      if (normalizedStudentAnswer =? normalizedCorrectAnswer)%string
      then add 1
      else ret tt
  else ret tt.

Definition analyze_attempt (question : Question) (index : nat)
  (stored : value) (_ : nat) : M unit :=
  callback (try_catch (analyze_body question index stored)
                      (fun error => console_log)).

(** [let correctCount = 0; attempts.forEach(...)] *)
Definition analyze_run (question : Question) (index : nat)
  (attempts : list value) : completion unit * Z :=
  forEach (analyze_attempt question index) attempts 0%nat 0.

Definition correctCount (question : Question) (index : nat)
  (attempts : list value) : Z :=
  snd (analyze_run question index attempts).

(** Whether one attempt is tallied correct for the question. *)
Definition tally (question : Question) (index : nat) (stored : value) : Z :=
  snd (analyze_attempt question index stored 0%nat 0).

Local Close Scope m_scope.

End Grading.

(** ** Percentages *)

(** [Math.min(a, b)] *)
Definition Math_min (a b : Q) : Q := if Qle_bool a b then a else b.

(** [x.toFixed(2)]: the multiple of 1/100 nearest to [x], the larger in
    magnitude of two nearest ones. *)
Definition toFixed2 (x : Q) : Q :=
  if Qle_bool 0 x
  then (Qfloor (x * 100 + (1 # 2)) # 100)%Q
  else (- (Qfloor (- x * 100 + (1 # 2)) # 100))%Q.

(** [quiz.total_marks > 0
       ? Math.min(100, (totalScore / quiz.total_marks) * 100).toFixed(2) : 0] *)
Definition percentageOf (quiz : Quiz) (totalScore : Z) : Q :=
  match total_marks quiz with
  | Some total =>
      if 0 <? total
      then toFixed2
             (Math_min 100 (inject_Z totalScore / inject_Z total * 100)%Q)
      else 0%Q
  | None => 0%Q
  end.

(** [totalAttempts > 0
       ? Math.min(100, (correctCount / totalAttempts * 100)).toFixed(2) : 0] *)
Definition accuracy_percentage (correctCount totalAttempts : Z) : Q :=
  if 0 <? totalAttempts
  then toFixed2
         (Math_min 100
            (inject_Z correctCount / inject_Z totalAttempts * 100)%Q)
  else 0%Q.

(** ** The database and its queries *)

Record DB : Type := {
  quizzes : list Quiz;
  student_subjects : list (Z * Z);
  quiz_attempts : list Attempt;
  questions : list Question;
  auto_increment : Z
}.

Inductive query : Type -> Type :=
| SelectQuiz (id : Z) : query (list Quiz)
| SelectEnrollment (student subject : Z) : query (list (Z * Z))
| SelectAttempts (quiz student : Z) : query (list Attempt)
| InsertAttempt (quiz student : Z) : query (error + Z)
| SelectQuestions (quiz : Z) : query (list Question)
| UpdateAttempt (id : Z) (answers : value) (score : Z) (percentage : Q)
  : query unit.

Definition for_pair (quiz student : Z) (a : Attempt) : bool :=
  (attempt_quiz_id a =? quiz) && (student_id a =? student).

Definition select_quiz (id : Z) (db : DB) : list Quiz :=
  filter (fun q => quiz_id q =? id) (quizzes db).

Definition select_enrollment (student subject : Z) (db : DB)
  : list (Z * Z) :=
  filter (fun r => (fst r =? student) && (snd r =? subject))
         (student_subjects db).

Definition select_attempts (quiz student : Z) (db : DB) : list Attempt :=
  filter (for_pair quiz student) (quiz_attempts db).

(** Rows are kept in the order of their ids, so [ORDER BY id] is the order
    of the table. *)
Definition select_questions (quiz : Z) (db : DB) : list Question :=
  filter (fun q => question_quiz_id q =? quiz) (questions db).

(** The row [INSERT INTO quiz_attempts (quiz_id, student_id)] creates, the
    other columns at their defaults. *)
Definition new_attempt (id quiz student : Z) : Attempt :=
  {| attempt_id := id; attempt_quiz_id := quiz; student_id := student;
     submitted_at := None; score := 0; percentage := 0%Q; answers := JNull |}.

(** [UNIQUE KEY unique_attempt (quiz_id, student_id)] rejects a second row
    for the pair. *)
Definition insert_attempt (quiz student : Z) (db : DB) : (error + Z) * DB :=
  if existsb (for_pair quiz student) (quiz_attempts db)
  then (inl ER_DUP_ENTRY, db)
  else
    (inr (auto_increment db),
     {| quizzes := quizzes db;
        student_subjects := student_subjects db;
        quiz_attempts :=
          quiz_attempts db ++ [new_attempt (auto_increment db) quiz student];
        questions := questions db;
        auto_increment := auto_increment db + 1 |}).

(** [UPDATE quiz_attempts SET answers = ?, score = ?, percentage = ?,
     submitted_at = NOW() WHERE id = ?] *)
Definition update_attempt (now id : Z) (ans : value) (sc : Z) (pct : Q)
  (db : DB) : DB :=
  {| quizzes := quizzes db;
     student_subjects := student_subjects db;
     quiz_attempts :=
       map (fun a =>
              if attempt_id a =? id
              then {| attempt_id := attempt_id a;
                      attempt_quiz_id := attempt_quiz_id a;
                      student_id := student_id a;
                      submitted_at := Some now;
                      score := sc; percentage := pct; answers := ans |}
              else a)
           (quiz_attempts db);
     questions := questions db;
     auto_increment := auto_increment db |}.

Definition exec (now : Z) {X} (q : query X) (db : DB) : X * DB :=
  match q in query X return X * DB with
  | SelectQuiz id => (select_quiz id db, db)
  | SelectEnrollment student subject =>
      (select_enrollment student subject db, db)
  | SelectAttempts quiz student => (select_attempts quiz student db, db)
  | InsertAttempt quiz student => insert_attempt quiz student db
  | SelectQuestions quiz => (select_questions quiz db, db)
  | UpdateAttempt id ans sc pct => (tt, update_attempt now id ans sc pct db)
  end.

(** ** Routes as programs over queries *)

Inductive prog (A : Type) : Type :=
| Ret (a : A)
| Await {X : Type} (q : query X) (k : X -> prog A).
Arguments Ret {A} a.
Arguments Await {A X} q k.

Declare Scope prog_scope.
Delimit Scope prog_scope with prog.
Notation "x <- 'await' q ;; k" := (Await q (fun x => k))
  (at level 61, q at next level, right associativity) : prog_scope.

(** One request running alone. *)
Fixpoint run (now : Z) {A} (p : prog A) (db : DB) : A * DB :=
  match p with
  | Ret a => (a, db)
  | Await q k => let '(x, db') := exec now q db in run now (k x) db'
  end.

(** A request running among others: before its n-th query the n-th entry
    of [others] acts on the database. *)
Fixpoint run_among (now : Z) (others : list (DB -> DB)) {A} (p : prog A)
  (db : DB) : A * DB :=
  match p with
  | Ret a => (a, db)
  | Await q k =>
      let '(x, db') := exec now q (hd (fun d => d) others db) in
      run_among now (tl others) (k x) db'
  end.

Inductive body : Type :=
| QuizDetails (quiz : Quiz) (current_attempt : Attempt)
              (questions : list Question)
| Resuming (attempt : Attempt)
| Started (attempt_id : Z)
| Submitted (score : Z) (total_marks : option Z) (percentage : Q).

Inductive response : Type :=
| Json (b : body)
| Status (code : Z) (message : string).

Definition is_rejected (r : response) : bool :=
  match r with Json _ => false | Status _ _ => true end.

(** ** A reader of JSON texts

    The theorems of this file hold for every [JSON.parse].  To run the
    routes on concrete rows, [Json.read] reads the JSON texts built from
    [null], [true], [false], integers, strings with the single-character
    escapes, arrays and objects; on such a text it returns what
    [JSON.parse] returns.  It rejects every text that is not JSON, and
    also JSON with fractions, exponents or [\u] escapes. *)

Module Json.

Definition is_ws (c : ascii) : bool :=
  let n := nat_of_ascii c in
  ((n =? 32) || (n =? 9) || (n =? 10) || (n =? 13))%nat.

Fixpoint skip_ws (s : string) : string :=
  match s with
  | String c rest => if is_ws c then skip_ws rest else s
  | EmptyString => EmptyString
  end.

Definition quote : ascii := ascii_of_nat 34.

Definition escape (c : ascii) : option ascii :=
  if Ascii.eqb c quote then Some quote
  else match c with
       | "\"%char => Some "\"%char
       | "/"%char => Some "/"%char
       | "b"%char => Some (ascii_of_nat 8)
       | "f"%char => Some (ascii_of_nat 12)
       | "n"%char => Some (ascii_of_nat 10)
       | "r"%char => Some (ascii_of_nat 13)
       | "t"%char => Some (ascii_of_nat 9)
       | _ => None
       end.

(** The characters of a string literal, after its opening quote. *)
Fixpoint chars (s : string) : option (string * string) :=
  match s with
  | EmptyString => None
  | String "\" (String c rest) =>
      match escape c, chars rest with
      | Some c', Some (str, rest') => Some (String c' str, rest')
      | _, _ => None
      end
  | String c rest =>
      if Ascii.eqb c quote then Some (EmptyString, rest)
      else if (nat_of_ascii c <? 32)%nat then None
      else match chars rest with
           | Some (str, rest') => Some (String c str, rest')
           | None => None
           end
  end.

Definition is_digit (c : ascii) : bool :=
  let n := nat_of_ascii c in ((48 <=? n) && (n <=? 57))%nat.

Fixpoint span_digits (s : string) : string * string :=
  match s with
  | String c rest =>
      if is_digit c
      then let '(ds, rest') := span_digits rest in (String c ds, rest')
      else (EmptyString, s)
  | EmptyString => (EmptyString, EmptyString)
  end.

(** An integer literal: no leading zero, no fraction, no exponent. *)
Definition number (s : string) : option (Z * string) :=
  let '(sign, s1) :=
    match s with String "-" rest => (-1, rest) | _ => (1, s) end in
  let '(ds, rest) := span_digits s1 in
  let deny :=
    match rest with
    | String "." _ | String "e" _ | String "E" _ => true
    | _ => false
    end in
  match ds with
  | EmptyString => None
  | String "0" (String _ _) => None
  | _ =>
      if deny then None
      else match digits 10 None ds with
           | Some m => Some (sign * m, rest)
           | None => None
           end
  end.

Fixpoint set_prop (k : string) (v : value) (props : list (string * value))
  : list (string * value) :=
  match props with
  | [] => [(k, v)]
  | (k', v') :: rest =>
      if (k =? k')%string then (k, v) :: rest
      else (k', v') :: set_prop k v rest
  end.

Fixpoint elements (fuel : nat) (item : string -> option (value * string))
  (s : string) (acc : list value) : option (list value * string) :=
  match fuel with
  | O => None
  | S fuel' =>
      match item s with
      | Some (v, rest) =>
          match skip_ws rest with
          | String "," rest' => elements fuel' item rest' (acc ++ [v])%list
          | String "]" rest' => Some ((acc ++ [v])%list, rest')
          | _ => None
          end
      | None => None
      end
  end.

Fixpoint members (fuel : nat) (item : string -> option (value * string))
  (s : string) (acc : list (string * value))
  : option (list (string * value) * string) :=
  match fuel with
  | O => None
  | S fuel' =>
      match skip_ws s with
      | String c rest =>
          if Ascii.eqb c quote then
            match chars rest with
            | Some (k, rest1) =>
                match skip_ws rest1 with
                | String ":" rest2 =>
                    match item rest2 with
                    | Some (v, rest3) =>
                        match skip_ws rest3 with
                        | String "," rest4 =>
                            members fuel' item rest4 (set_prop k v acc)
                        | String "}" rest4 => Some (set_prop k v acc, rest4)
                        | _ => None
                        end
                    | None => None
                    end
                | _ => None
                end
            | None => None
            end
          else None
      | EmptyString => None
      end
  end.

Definition keyword (w : string) (v : value) (s : string)
  : option (value * string) :=
  if prefix w s
  then Some (v, substring (String.length w)
                          (String.length s - String.length w) s)
  else None.

Fixpoint item (fuel : nat) (s : string) : option (value * string) :=
  match fuel with
  | O => None
  | S fuel' =>
      match skip_ws s with
      | String "[" rest =>
          match skip_ws rest with
          | String "]" rest' => Some (JArr [], rest')
          | _ =>
              match elements fuel' (item fuel') rest [] with
              | Some (vs, rest') => Some (JArr vs, rest')
              | None => None
              end
          end
      | String "{" rest =>
          match skip_ws rest with
          | String "}" rest' => Some (JObj [], rest')
          | _ =>
              match members fuel' (item fuel') rest [] with
              | Some (ps, rest') => Some (JObj ps, rest')
              | None => None
              end
          end
      | String "n" _ as s' => keyword "null" JNull s'
      | String "t" _ as s' => keyword "true" (JBool true) s'
      | String "f" _ as s' => keyword "false" (JBool false) s'
      | String c rest as s' =>
          if Ascii.eqb c quote then
            match chars rest with
            | Some (str, rest') => Some (JStr str, rest')
            | None => None
            end
          else
            match number s' with
            | Some (z, rest') => Some (JNum z, rest')
            | None => None
            end
      | EmptyString => None
      end
  end.

Definition read (s : string) : option value :=
  match item (S (String.length s)) s with
  | Some (v, rest) =>
      match skip_ws rest with
      | EmptyString => Some v
      | _ => None
      end
  | None => None
  end.

End Json.

(** ** The student routes *)

Section Routes.

Variable JSON_parse : string -> option value.

Definition submitted (a : Attempt) : bool :=
  match submitted_at a with Some _ => true | None => false end.

(** [quiz.start_date && new Date(quiz.start_date) > now] *)
Definition not_started (quiz : Quiz) (now : Z) : bool :=
  match start_date quiz with Some d => now <? d | None => false end.

(** [quiz.end_date && new Date(quiz.end_date) < now] *)
Definition ended (quiz : Quiz) (now : Z) : bool :=
  match end_date quiz with Some d => d <? now | None => false end.

(** The question as the details route sends it: the query does not select
    [correct_answer]; stored options are parsed, an error giving [null]. *)
Definition questionForStudent (q : Question) : Question :=
  {| question_id := question_id q;
     question_quiz_id := question_quiz_id q;
     question_type := question_type q;
     marks := marks q;
     options :=
       if truthy (options q) then
         match options q with
         | JStr text =>
             match JSON_parse text with Some v => v | None => JNull end
         | JArr elems => JArr elems
         | _ => JNull
         end
       else JNull;
     correct_answer := JUndefined |}.

Local Open Scope prog_scope.

(** The tail of [GET /quizzes/details/:id], once the attempt is known. *)
Definition details_questions (id : Z) (quiz : Quiz) (attempt : Attempt)
  : prog response :=
  questions <- await SelectQuestions id ;;
  match questions with
  | [] => Ret (Status 400 "No questions found for this quiz")
  | _ :: _ =>
      Ret (Json (QuizDetails quiz attempt
                   (map questionForStudent questions)))
  end.

(** [GET /quizzes/details/:id] lines 126-157: use the attempt found, or
    insert one; a failed insert fetches again. *)
Definition details_attempt (student id : Z) (attempts : list Attempt)
  (k : Attempt -> prog response) : prog response :=
  match attempts with
  | attempt :: _ => k attempt
  | [] =>
      result <- await InsertAttempt id student ;;
      match result with
      | inr insertId =>
          k {| attempt_id := insertId; attempt_quiz_id := id;
               student_id := student; submitted_at := None;
               score := 0; percentage := 0%Q; answers := JUndefined |}
      | inl insertError =>
          retryAttempts <- await SelectAttempts id student ;;
          match retryAttempts with
          | attempt :: _ =>
              if submitted attempt
              then Ret (Status 403 "You have already submitted this quiz")
              else k attempt
          | [] => Ret (Status 500 "Server error while fetching quiz details")
          end
      end
  end.

(** [GET /quizzes/details/:id] *)
Definition details_route (now student id : Z) : prog response :=
  quizzes <- await SelectQuiz id ;;
  match quizzes with
  | [] => Ret (Status 404 "Quiz not found")
  | quiz :: _ =>
      enrollment <- await SelectEnrollment student (subject_id quiz) ;;
      match enrollment with
      | [] => Ret (Status 403 "You are not enrolled in this subject")
      | _ :: _ =>
          if negb (is_active quiz) then
            Ret (Status 403 "This quiz is not active")
          else if not_started quiz now then
            Ret (Status 403 "This quiz has not started yet")
          else if ended quiz now then
            Ret (Status 403 "This quiz has ended")
          else
            attempts <- await SelectAttempts id student ;;
            match attempts with
            | attempt :: _ =>
                if submitted attempt
                then Ret (Status 403 "You have already submitted this quiz")
                else details_attempt student id attempts
                       (details_questions id quiz)
            | [] =>
                details_attempt student id attempts
                  (details_questions id quiz)
            end
      end
  end.

(** [POST /quizzes/:id/start] lines 252-258: insert the attempt; an error
    of the insert reaches the [catch] of the route. *)
Definition start_create (student id : Z) : prog response :=
  result <- await InsertAttempt id student ;;
  match result with
  | inr insertId => Ret (Json (Started insertId))
  | inl error => Ret (Status 500 "Server error")
  end.

(** [POST /quizzes/:id/start] *)
Definition start_route (student id : Z) : prog response :=
  quizzes <- await SelectQuiz id ;;
  match quizzes with
  | [] => Ret (Status 404 "Quiz not found")
  | quiz :: _ =>
      enrollment <- await SelectEnrollment student (subject_id quiz) ;;
      match enrollment with
      | [] => Ret (Status 403 "You are not enrolled in this subject")
      | _ :: _ =>
          attempts <- await SelectAttempts id student ;;
          match attempts with
          | attempt :: _ =>
              if submitted attempt
              then Ret (Status 403 "You have already submitted this quiz")
              else Ret (Json (Resuming attempt))
          | [] => start_create student id
          end
      end
  end.

(** [POST /quizzes/:id/submit] from line 315 on: grade and store. *)
Definition submit_grade (id : Z) (quiz : Quiz) (answers : value)
  (attemptId : Z) : prog response :=
  questions <- await SelectQuestions id ;;
  match questions with
  | [] => Ret (Status 400 "No questions found for this quiz")
  | _ :: _ =>
      match grade_run JSON_parse questions answers with
      | (Throw error, _) => Ret (Status 500 "Server error")
      | (_, totalScore) =>
          let percentage := percentageOf quiz totalScore in
          _ <- await UpdateAttempt attemptId answers totalScore percentage ;;
          Ret (Json (Submitted totalScore (total_marks quiz) percentage))
      end
  end.

(** [POST /quizzes/:id/submit] *)
Definition submit_route (student id : Z) (answers : value) : prog response :=
  if negb (truthy answers) || negb (is_object answers) then
    Ret (Status 400 "Answers are required and must be an object")
  else
    quizzes <- await SelectQuiz id ;;
    match quizzes with
    | [] => Ret (Status 404 "Quiz not found")
    | quiz :: _ =>
        enrollment <- await SelectEnrollment student (subject_id quiz) ;;
        match enrollment with
        | [] => Ret (Status 403 "You are not enrolled in this subject")
        | _ :: _ =>
            attempts <- await SelectAttempts id student ;;
            match attempts with
            | [] =>
                result <- await InsertAttempt id student ;;
                match result with
                | inr insertId => submit_grade id quiz answers insertId
                | inl error => Ret (Status 500 "Server error")
                end
            | attempt :: _ =>
                if submitted attempt
                then Ret (Status 403 "Quiz already submitted")
                else submit_grade id quiz answers (attempt_id attempt)
            end
        end
    end.

Local Close Scope prog_scope.

End Routes.

(** ** The question analysis of the teacher route *)

Section Analysis.

Variable JSON_parse : string -> option value.

Record QuestionAnalysis : Type := {
  correct_answers : Z;
  total_attempts : Z;
  accuracy : Q
}.

Fixpoint mapi {A B} (f : A -> nat -> B) (xs : list A) (index : nat)
  : list B :=
  match xs with
  | [] => []
  | x :: rest => f x index :: mapi f rest (S index)
  end.

(** [questions.map((question, index) => ...)] over the [answers] column of
    the submitted attempts of the quiz. *)
Definition questionAnalysis (questions : list Question)
  (attempts : list value) : list QuestionAnalysis :=
  mapi (fun question index =>
          let count := correctCount JSON_parse question index attempts in
          let totalAttempts := Z.of_nat (List.length attempts) in
          {| correct_answers := count;
             total_attempts := totalAttempts;
             accuracy := accuracy_percentage count totalAttempts |})
       questions 0%nat.

End Analysis.

(** ** The claims in the words of the specification *)

Definition defined (v : value) : bool :=
  match v with JUndefined => false | _ => true end.

(** The first value of [vs] that satisfies [p]; the empty text when there
    is none. *)
Definition first_of (p : value -> bool) (vs : list value) : value :=
  match find p vs with Some v => v | None => JStr EmptyString end.

(** The values under the three keys of the question at [index], in the
    order the lookup tries them. *)
Definition candidates (answers : value) (index : nat)
  : completion (list value) :=
  cbind (get_num answers (Z.of_nat index)) (fun byNumber =>
  cbind (get answers (nat_toString index)) (fun byText =>
  cbind (get answers ("question-" ++ nat_toString index)) (fun byName =>
  Normal [byNumber; byText; byName]))).

(** The lookup as the specification states it: the first defined value. *)
Definition lookup_first_defined (answers : value) (index : nat)
  : completion value :=
  cbind (candidates answers index) (fun vs => Normal (first_of defined vs)).

(** The lookup as the first truthy value. *)
Definition lookup_first_truthy (answers : value) (index : nat)
  : completion value :=
  cbind (candidates answers index) (fun vs => Normal (first_of truthy vs)).

(** A text read as a non-negative integer written in decimal digits:
    [None] for the empty text and for a text with any other character. *)
Definition decimal_index (text : string) : option Z :=
  match text with
  | EmptyString => None
  | _ =>
      option_map (fun d => Z.of_N (N.of_uint d))
                 (NilEmpty.uint_of_string text)
  end.

(** The accepted forms of a multiple-choice question as the specification
    states them: the normalized correct answer itself, and, when the
    correct answer is a non-negative integer that is a valid index into the
    options, the normalized text of that option. *)
Definition accepted_form (normalizedCorrectAnswer : string)
  (optionTexts : list string) (normalizedAnswer : string) : Prop :=
  normalizedAnswer = normalizedCorrectAnswer
  \/ exists (n : Z) (text : string),
       decimal_index normalizedCorrectAnswer = Some n
       /\ nth_error optionTexts (Z.to_nat n) = Some text
       /\ normalizedAnswer = toLowerCase (trim text).

(** The accepted forms with the index as [parseInt] reads it: an optional
    sign, then the longest prefix of digits, hexadecimal after [0x];
    whatever follows the digits is ignored. *)
Definition accepted_form_parseInt (normalizedCorrectAnswer : string)
  (optionTexts : list string) (normalizedAnswer : string) : Prop :=
  normalizedAnswer = normalizedCorrectAnswer
  \/ exists (n : Z) (text : string),
       parseInt normalizedCorrectAnswer = Some n
       /\ 0 <= n
       /\ nth_error optionTexts (Z.to_nat n) = Some text
       /\ normalizedAnswer = toLowerCase (trim text).

(** ** The decisions of the two callbacks, as booleans *)

Section Decisions.

Variable JSON_parse : string -> option value.

(** Whether [options[correctOptionIndex]] is truthy and its normalized text
    is the normalized answer. *)
Definition option_matches (opts : value) (normalizedCorrectAnswer : string)
  (normalizedStudentAnswer : string) : bool :=
  match parseInt normalizedCorrectAnswer with
  | Some correctOptionIndex =>
      match get_num opts correctOptionIndex with
      | Normal opt =>
          truthy opt &&
          match normalize opt with
          | Normal correctOptionText =>
              (normalizedStudentAnswer =? correctOptionText)%string
          | _ => false
          end
      | _ => false
      end
  | None => false
  end.

(** Whether the submit route adds the marks of the question. *)
Definition awarded (answers : value) (question : Question) (index : nat)
  : bool :=
  match lookupAnswer answers index with
  | Normal studentAnswer =>
      truthy studentAnswer &&
      match toString studentAnswer, normalizedCorrect question with
      | Normal s, Normal nc =>
          let ns := toLowerCase (trim s) in
          negb (trim s =? EmptyString)%string &&
          negb (nc =? EmptyString)%string &&
          if (question_type question =? "mcq")%string
             && truthy (options question)
          then
            match parsedOptions JSON_parse question with
            | Normal opts => (ns =? nc)%string || option_matches opts nc ns
            | _ => false
            end
          else (ns =? nc)%string
      | _, _ => false
      end
  | _ => false
  end.

(** Whether the analysis counts the attempt as correct for the question. *)
Definition counted (question : Question) (index : nat) (stored : value)
  : bool :=
  match attemptAnswers JSON_parse stored 0 with
  | (Normal answers, _) =>
      match lookupAnswer answers index with
      | Normal studentAnswer =>
          truthy studentAnswer &&
          match toString studentAnswer, normalizedCorrect question with
          | Normal s, Normal nc =>
              let ns := toLowerCase (trim s) in
              if (question_type question =? "mcq")%string
                 && truthy (options question)
              then
                match parsedOptions JSON_parse question with
                | Normal opts =>
                    (ns =? nc)%string ||
                    (isArray opts && option_matches opts nc ns)
                | Throw optionError => (ns =? nc)%string
                | Return => false
                end
              else (ns =? nc)%string
          | _, _ => false
          end
      | _ => false
      end
  | _ => false
  end.

(** The marks of the questions the submit route awards, for the questions
    from position [index] on. *)
Fixpoint credits (answers : value) (questions : list Question) (index : nat)
  : Z :=
  match questions with
  | [] => 0
  | question :: rest =>
      (if awarded answers question index then marks question else 0)
      + credits answers rest (S index)
  end.

(** The number of attempts the analysis counts for a question. *)
Fixpoint tallies (question : Question) (index : nat) (attempts : list value)
  : Z :=
  match attempts with
  | [] => 0
  | stored :: rest =>
      (if counted question index stored then 1 else 0)
      + tallies question index rest
  end.

End Decisions.

(** Whether the answer found for the question is truthy and yet blank once
    trimmed. *)
Definition blank_answer (answers : value) (index : nat) : bool :=
  match lookupAnswer answers index with
  | Normal studentAnswer =>
      truthy studentAnswer &&
      match toString studentAnswer with
      | Normal s => (trim s =? EmptyString)%string
      | _ => false
      end
  | _ => false
  end.

(** Whether the question takes the plain comparison, or its options read
    as an array. *)
Definition options_are_list (JSON_parse : string -> option value)
  (question : Question) : bool :=
  negb ((question_type question =? "mcq")%string
        && truthy (options question))
  || match parsedOptions JSON_parse question with
     | Normal opts => isArray opts
     | _ => false
     end.


(** ** Rows of the examples *)

Definition quoted (s : string) : string :=
  String Json.quote (s ++ String Json.quote EmptyString).

(** A question whose options are stored as the JSON text
    [["Paris","London","Berlin"]], the correct answer being the index 0. *)
Definition capital : Question :=
  {| question_id := 1; question_quiz_id := 1; question_type := "mcq";
     marks := 10;
     options :=
       JStr ("[" ++ quoted "Paris" ++ "," ++ quoted "London" ++ ","
                 ++ quoted "Berlin" ++ "]");
     correct_answer := JStr "0" |}.

(** The same question, its options column already decoded by the driver. *)
Definition capital_decoded : Question :=
  {| question_id := 1; question_quiz_id := 1; question_type := "mcq";
     marks := 10;
     options := JArr [JStr "Paris"; JStr "London"; JStr "Berlin"];
     correct_answer := JStr "0" |}.

(** A question whose options column holds the text [Paris;London], which
    is not JSON. *)
Definition broken : Question :=
  {| question_id := 2; question_quiz_id := 1; question_type := "mcq";
     marks := 10;
     options := JStr "Paris;London";
     correct_answer := JStr "Paris" |}.

(** A short-answer question with no correct answer stored. *)
Definition essay : Question :=
  {| question_id := 3; question_quiz_id := 1;
     question_type := "short_answer";
     marks := 5; options := JNull; correct_answer := JNull |}.

Definition second : Question :=
  {| question_id := 4; question_quiz_id := 1;
     question_type := "short_answer";
     marks := 5; options := JNull; correct_answer := JStr "Seine" |}.

(** A quiz of subject 7 that is open, and one that is inactive and past
    its end date; student 5 is enrolled in subject 7. *)
Definition open_quiz : Quiz :=
  {| quiz_id := 1; subject_id := 7; total_marks := Some 10;
     start_date := None; end_date := None; is_active := true |}.

Definition closed_quiz : Quiz :=
  {| quiz_id := 1; subject_id := 7; total_marks := Some 10;
     start_date := None; end_date := Some 50; is_active := false |}.

Definition open_db : DB :=
  {| quizzes := [open_quiz]; student_subjects := [(5, 7)];
     quiz_attempts := []; questions := [capital_decoded; second];
     auto_increment := 1 |}.

Definition closed_db : DB :=
  {| quizzes := [closed_quiz]; student_subjects := [(5, 7)];
     quiz_attempts := []; questions := [capital_decoded; second];
     auto_increment := 1 |}.

(** An open quiz with no question yet. *)
Definition empty_db : DB :=
  {| quizzes := [open_quiz]; student_subjects := [(5, 7)];
     quiz_attempts := []; questions := []; auto_increment := 1 |}.

(** The database after student 5 submitted quiz 1 at time 60. *)
Definition graded_db : DB :=
  {| quizzes := [open_quiz]; student_subjects := [(5, 7)];
     quiz_attempts :=
       [{| attempt_id := 1; attempt_quiz_id := 1; student_id := 5;
           submitted_at := Some 60; score := 10; percentage := 100%Q;
           answers := JObj [("0", JStr "paris")] |}];
     questions := [capital_decoded; second];
     auto_increment := 2 |}.

(** Another start request of student 5 for quiz 1, run to its end. *)
Definition other_start (db : DB) : DB := snd (run 100 (start_route 5 1) db).

(** A schedule in which that request runs between the third and the
    fourth query of the request observed. *)
Definition racing : list (DB -> DB) :=
  [fun db => db; fun db => db; fun db => db; other_start].

Definition blanks : value := JObj [("0", JStr "  ")].

(** A question whose options are stored as an object keyed by position,
    and an attempt that chose the option of key 1. *)
Definition keyed : Question :=
  {| question_id := 5; question_quiz_id := 1; question_type := "mcq";
     marks := 2;
     options := JObj [("0", JStr "Paris"); ("1", JStr "London")];
     correct_answer := JStr "1" |}.

Definition london : value := JObj [("0", JStr "London")].

Definition zero_then_named : value :=
  JObj [("0", JNum 0); ("question-0", JStr "b")].

(** The number 0 submitted for the first question. *)
Definition zero_answer : value := JObj [("0", JNum 0)].

(** A question whose correct answer starts with a digit and goes on with
    letters. *)
Definition suffixed : Question :=
  {| question_id := 6; question_quiz_id := 1; question_type := "mcq";
     marks := 3;
     options := JArr [JStr "Paris"; JStr "London"];
     correct_answer := JStr "1abc" |}.

(** ** Further definitions *)

(** The sum of the marks of the questions. *)
Definition marks_total (questions : list Question) : Z :=
  fold_right (fun question acc => marks question + acc) 0 questions.

(** Evaluate the digit test on the next character of a decimal text. *)
Ltac eval_digit :=
  cbn [NilEmpty.string_of_uint digits Pos.of_uint_acc Pos.of_uint];
  match goal with
  | |- context [digit 10 ?c] =>
      let v := eval vm_compute in (digit 10 c) in
      change (digit 10 c) with v
  end;
  cbv iota beta.


(** Whether the attempt the routes would use for the pair, the first row
    the query returns, is absent or not yet submitted. *)
Definition open_for (quiz student : Z) (db : DB) : bool :=
  match select_attempts quiz student db with
  | [] => true
  | attempt :: _ => negb (submitted attempt)
  end.

(** ** The read-only student routes *)

(** What a route answers: the rows of [res.json], or a status with a
    message. *)
Inductive reply (A : Type) : Type :=
| Sent (a : A)
| Refused (code : Z) (message : string).
Arguments Sent {A} a.
Arguments Refused {A} code message.

(** [ORDER BY key DESC]: rows with a larger key first, rows without key
    last, rows with equal keys in the order of the table. *)
Definition key_ge (a b : option Z) : bool :=
  match a, b with
  | Some x, Some y => y <=? x
  | Some _, None => true
  | None, Some _ => false
  | None, None => true
  end.

Fixpoint insert_desc {A} (key : A -> option Z) (x : A) (l : list A)
  : list A :=
  match l with
  | [] => [x]
  | y :: rest =>
      if key_ge (key x) (key y) then x :: l
      else y :: insert_desc key x rest
  end.

Definition order_desc {A} (key : A -> option Z) (l : list A) : list A :=
  fold_right (insert_desc key) [] l.

(** A row of [GET /quizzes/:subject_id]: the quiz with the columns taken
    from the attempt of the student, if there is one. *)
Record AvailableQuiz : Type := {
  listed_quiz : Quiz;
  attempted : bool;
  my_score : option Z;
  my_percentage : option Q;
  in_progress : bool
}.

(** [q.subject_id = ? AND q.is_active = true
     AND (q.start_date IS NULL OR q.start_date <= ?)
     AND (q.end_date IS NULL OR q.end_date >= ?)] *)
Definition available (subject nowString : Z) (q : Quiz) : bool :=
  (subject_id q =? subject)
  && is_active q
  && match start_date q with Some d => d <=? nowString | None => true end
  && match end_date q with Some d => nowString <=? d | None => true end.

(** The columns computed from the joined attempt [qa], [None] when the
    left join found no attempt. *)
Definition available_row (q : Quiz) (qa : option Attempt) : AvailableQuiz :=
  {| listed_quiz := q;
     attempted :=
       match qa with Some a => submitted a | None => false end;
     my_score := option_map score qa;
     my_percentage := option_map percentage qa;
     in_progress :=
       match qa with Some a => negb (submitted a) | None => false end |}.

(** [LEFT JOIN quiz_attempts qa ON q.id = qa.quiz_id AND qa.student_id = ?] *)
Definition left_join_attempts (student : Z) (db : DB) (q : Quiz)
  : list AvailableQuiz :=
  match select_attempts (quiz_id q) student db with
  | [] => [available_row q None]
  | found => map (fun a => available_row q (Some a)) found
  end.

(** [GET /quizzes/:subject_id], [nowString] being the time the query is
    given.  The join with the experiments keeps every quiz: a quiz has
    exactly one experiment. *)
Definition available_route (nowString student subject : Z) (db : DB)
  : reply (list AvailableQuiz) :=
  match select_enrollment student subject db with
  | [] => Refused 403 "You are not enrolled in this subject"
  | _ :: _ =>
      Sent (order_desc (fun r => start_date (listed_quiz r))
              (flat_map (left_join_attempts student db)
                 (filter (available subject nowString) (quizzes db))))
  end.

(** A row of [GET /scores]. *)
Record ScoreRow : Type := {
  scored_quiz : Quiz;
  scored_score : Z;
  scored_percentage : Q;
  scored_at : Z
}.

(** [GET /scores]: the submitted attempts of the student, each joined with
    its quiz, the latest submission first.  The joins with the subject, the
    class and the experiment keep every row: each exists and is unique. *)
Definition scores_route (student : Z) (db : DB) : list ScoreRow :=
  order_desc (fun r => Some (scored_at r))
    (flat_map
       (fun qa =>
          match submitted_at qa with
          | Some at_ =>
              if student_id qa =? student then
                map (fun q =>
                       {| scored_quiz := q;
                          scored_score := score qa;
                          scored_percentage := percentage qa;
                          scored_at := at_ |})
                    (select_quiz (attempt_quiz_id qa) db)
              else []
          | None => []
          end)
       (quiz_attempts db)).

(** ** The question import of the teacher route

    [POST /quizzes/import-questions] reads questions from an uploaded
    spreadsheet, JSON file or CSV file.  The rows of the first sheet are
    taken as [xlsx.utils.sheet_to_json] gives them, and the content of the
    file as [fs.readFileSync] gives it. *)

Module ImportQuestions.

(** [s.split(c)] for a separator of one character. *)
Fixpoint split (c : ascii) (s : string) : list string :=
  match s with
  | EmptyString => [EmptyString]
  | String a rest =>
      match split c rest with
      | current :: others =>
          if Ascii.eqb a c then EmptyString :: current :: others
          else String a current :: others
      | [] => []
      end
  end.

(** [s.includes(sub)] *)
Fixpoint includes (sub s : string) : bool :=
  prefix sub s ||
  match s with
  | EmptyString => false
  | String _ rest => includes sub rest
  end.

(** [xs.findIndex(p)], counting from [index]; -1 when no element fits. *)
Fixpoint findIndex {A} (p : A -> bool) (xs : list A) (index : Z) : Z :=
  match xs with
  | [] => -1
  | x :: rest => if p x then index else findIndex p rest (index + 1)
  end.

(** [xs[i]] for a list of texts. *)
Definition at_index (xs : list string) (i : Z) : value :=
  if i <? 0 then JUndefined
  else match nth_error xs (Z.to_nat i) with
       | Some s => JStr s
       | None => JUndefined
       end.

(** [originalname.split('.').pop().toLowerCase()] *)
Definition fileExtension (originalname : string) : string :=
  toLowerCase (last (split "." originalname) EmptyString).

(** [v.trim()] and [v.toLowerCase()]: only a text has these methods. *)
Definition call_trim (v : value) : completion string :=
  match v with JStr s => Normal (trim s) | _ => Throw TypeError end.

Definition call_toLowerCase (v : value) : completion string :=
  match v with JStr s => Normal (toLowerCase s) | _ => Throw TypeError end.

(** A question as the import answers it. *)
Record question : Type := {
  question_text : value;
  question_type : string;
  options : value;
  correct_answer : value;
  marks : value;
  row_number : Z
}.

(** [q.question_text && q.question_text.trim() !== ''] *)
Definition has_text (q : question) : completion bool :=
  if truthy (question_text q)
  then cbind (call_trim (question_text q))
             (fun t => Normal (negb (t =? EmptyString)%string))
  else Normal false.

(** [questions.filter(q => ...)], an error of the test ending the
    filter. *)
Fixpoint filter_text (qs : list question) : completion (list question) :=
  match qs with
  | [] => Normal []
  | q :: rest =>
      cbind (has_text q) (fun keep =>
      cbind (filter_text rest) (fun kept =>
      Normal (if keep then q :: kept else kept)))
  end.

(** [xs.map((x, index) => f x index)], an error of [f] ending the map. *)
Fixpoint map_rows {A} (f : A -> Z -> completion question) (xs : list A)
  (index : Z) : completion (list question) :=
  match xs with
  | [] => Normal []
  | x :: rest =>
      cbind (f x index) (fun q =>
      cbind (map_rows f rest (index + 1)) (fun qs => Normal (q :: qs)))
  end.

(** *** CSV *)

Definition newline : ascii := ascii_of_nat 10.

Definition nonblank (s : string) : bool := negb (trim s =? EmptyString)%string.

Definition header_has (word : string) (h : string) : bool :=
  includes word (toLowerCase h).

(** [headers.map((h, i) => h.toLowerCase().includes('option') ? i : -1)
      .filter(i => i !== -1)] *)
Fixpoint optionIndices (headers : list string) (i : Z) : list Z :=
  match headers with
  | [] => []
  | h :: rest =>
      if header_has "option" h then i :: optionIndices rest (i + 1)
      else optionIndices rest (i + 1)
  end.

(** The texts among [values[i]] that are truthy and not blank. *)
Definition option_values (values : list string) (indices : list Z)
  : list string :=
  flat_map (fun i =>
              match at_index values i with
              | JStr s => if truthy (JStr s) && nonblank s then [s] else []
              | _ => []
              end)
           indices.

Definition csv_type (questionType : string) : string :=
  if (questionType =? "mcq")%string then "mcq"
  else if (questionType =? "short")%string
          || (questionType =? "short_answer")%string then "short_answer"
  else if (questionType =? "long")%string
          || (questionType =? "long_answer")%string then "long_answer"
  else "mcq".

(** The callback of [lines.slice(1).map]. *)
Definition csv_row (questionIndex typeIndex answerIndex marksIndex : Z)
  (indices : list Z) (line : string) (index : Z) : completion question :=
  let values := map trim (split "," line) in
  let questionText :=
    if 0 <=? questionIndex then at_index values questionIndex
    else JStr EmptyString in
  cbind
    (if 0 <=? typeIndex
     then call_toLowerCase
            (if truthy (at_index values typeIndex)
             then at_index values typeIndex else JStr "mcq")
     else Normal "mcq")
    (fun questionType =>
       let correctAnswer :=
         if 0 <=? answerIndex then at_index values answerIndex
         else JStr EmptyString in
       let marks_ :=
         if 0 <=? marksIndex then at_index values marksIndex
         else JStr EmptyString in
       let opts := option_values values indices in
       Normal
         {| question_text := questionText;
            question_type := csv_type questionType;
            options :=
              if (questionType =? "mcq")%string
                 && (0 <? Z.of_nat (List.length opts))
              then JArr (map JStr opts) else JNull;
            correct_answer := correctAnswer;
            marks := marks_;
            row_number := index + 2 |}).

(** The CSV branch, from the content of the file to the questions kept;
    [inl] is the early answer for a file with fewer than two lines. *)
Definition csv_questions (csvContent : string)
  : completion (string + list question) :=
  let lines := filter nonblank (split newline csvContent) in
  if Z.of_nat (List.length lines) <? 2 then
    Normal (inl "CSV file must have at least a header and one data row")
  else
    let headers := map trim (split "," (hd EmptyString lines)) in
    let questionIndex := findIndex (header_has "question") headers 0 in
    let typeIndex := findIndex (header_has "type") headers 0 in
    let answerIndex :=
      findIndex (fun h => header_has "answer" h || header_has "correct" h)
                headers 0 in
    let marksIndex := findIndex (header_has "mark") headers 0 in
    let indices := optionIndices headers 0 in
    cbind (map_rows (csv_row questionIndex typeIndex answerIndex marksIndex
                       indices) (tl lines) 0)
          (fun qs => cbind (filter_text qs) (fun kept => Normal (inr kept))).

(** *** JSON *)

Section Formats.

Variable JSON_parse : string -> option value.

(** [item.question_text || item.question || item.text || ''] *)
Definition item_text (item : value) : completion value :=
  or_else
    (or_else
       (or_else (get item "question_text") (get item "question"))
       (get item "text"))
    (Normal (JStr EmptyString)).

(** [(item.question_type || item.type || 'mcq').toLowerCase()] *)
Definition item_type (item : value) : completion string :=
  cbind (or_else (or_else (get item "question_type") (get item "type"))
                 (Normal (JStr "mcq")))
        call_toLowerCase.

(** The three comparisons of the type, each on a fresh evaluation. *)
Definition json_type (item : value) : completion string :=
  cbind (item_type item) (fun t1 =>
  if (t1 =? "mcq")%string then Normal "mcq"
  else cbind (item_type item) (fun t2 =>
  if (t2 =? "short_answer")%string then Normal "short_answer"
  else cbind (item_type item) (fun t3 =>
  if (t3 =? "long_answer")%string then Normal "long_answer"
  else Normal "mcq"))).

(** [item.correct_answer || item.answer || item.correct || ''] *)
Definition item_answer (item : value) : completion value :=
  or_else
    (or_else
       (or_else (get item "correct_answer") (get item "answer"))
       (get item "correct"))
    (Normal (JStr EmptyString)).

(** The callback of [jsonData.map] when the file is an array
    ([inArray]), and of [jsonData.questions.map] otherwise: they differ in
    the options of an item that has none. *)
Definition json_item (inArray : bool) (item : value) (index : Z)
  : completion question :=
  cbind (item_text item) (fun text =>
  cbind (json_type item) (fun type =>
  cbind (or_else (get item "options")
           (if inArray
            then cbind (get item "question_type") (fun t =>
                 Normal (match t with
                         | JStr "mcq" => JArr []
                         | _ => JNull
                         end))
            else Normal JNull)) (fun opts =>
  cbind (item_answer item) (fun answer =>
  cbind (or_else (get item "marks") (Normal (JStr EmptyString)))
        (fun marks_ =>
  Normal {| question_text := text;
            question_type := type;
            options := opts;
            correct_answer := answer;
            marks := marks_;
            row_number := index + 1 |}))))).

(** The JSON branch. *)
Definition json_questions (fileContent : string)
  : completion (string + list question) :=
  match JSON_parse fileContent with
  | None => Throw SyntaxError
  | Some jsonData =>
      cbind
        (match jsonData with
         | JArr items => map_rows (json_item true) items 0
         | _ =>
             cbind (get jsonData "questions") (fun qs =>
             match qs with
             | JArr items => map_rows (json_item false) items 0
             | _ => Normal []
             end)
         end)
        (fun qs => cbind (filter_text qs) (fun kept => Normal (inr kept)))
  end.

(** *** Spreadsheet *)

(** [row['Question'] || row['Question Text'] || row['question'] || ''] *)
Definition row_text (row : value) : completion value :=
  or_else
    (or_else (or_else (get row "Question") (get row "Question Text"))
             (get row "question"))
    (Normal (JStr EmptyString)).

(** [(row['Type'] || row['Question Type'] || row['type'] || 'mcq')
      .toLowerCase()] *)
Definition row_type (row : value) : completion string :=
  cbind
    (or_else
       (or_else (or_else (get row "Type") (get row "Question Type"))
                (get row "type"))
       (Normal (JStr "mcq")))
    call_toLowerCase.

(** [row[`Option${i}`] || row[`option${i}`] || row[`Option ${i}`]] *)
Definition row_option (row : value) (i : nat) : completion value :=
  or_else
    (or_else (get row ("Option" ++ nat_toString i))
             (get row ("option" ++ nat_toString i)))
    (get row ("Option " ++ nat_toString i)).

(** The [for] loop over the option columns [i], [i + 1], ... ([n] of
    them). *)
Fixpoint numbered_options (row : value) (i n : nat)
  : completion (list string) :=
  match n with
  | O => Normal []
  | S n' =>
      cbind (row_option row i) (fun opt =>
      cbind (if truthy opt
             then cbind (toString opt) (fun t =>
                  if truthy (JStr (trim t)) then Normal [trim t]
                  else Normal [])
             else Normal []) (fun found =>
      cbind (numbered_options row (S i) n') (fun others =>
      Normal (found ++ others)%list)))
  end.

(** The options of a row: the [Options] column split at the commas, or
    the columns [Option1] to [Option10]. *)
Definition row_options (row : value) : completion (list string) :=
  cbind (get row "Options") (fun listed =>
  if truthy listed then
    cbind (toString listed) (fun t =>
    Normal (filter (fun o => truthy (JStr o)) (map trim (split "," t))))
  else numbered_options row 1 10).

(** [row['Correct Answer'] || row['Correct'] || row['Answer']
     || row['correct_answer'] || ''] *)
Definition row_answer (row : value) : completion value :=
  or_else
    (or_else
       (or_else (or_else (get row "Correct Answer") (get row "Correct"))
                (get row "Answer"))
       (get row "correct_answer"))
    (Normal (JStr EmptyString)).

Definition excel_type (questionType : string) : string :=
  if (questionType =? "mcq")%string
     || (questionType =? "multiple choice")%string then "mcq"
  else if (questionType =? "short")%string
          || (questionType =? "short answer")%string then "short_answer"
  else if (questionType =? "long")%string
          || (questionType =? "long answer")%string then "long_answer"
  else "mcq".

(** The callback of [data.map]. *)
Definition excel_row (row : value) (index : Z) : completion question :=
  cbind (row_text row) (fun questionText =>
  cbind (row_type row) (fun questionType =>
  cbind (row_options row) (fun opts =>
  cbind (row_answer row) (fun correctAnswer =>
  cbind (toString correctAnswer) (fun answerText =>
  cbind (or_else (or_else (get row "Marks") (get row "marks"))
                 (Normal (JStr EmptyString))) (fun marks_ =>
  Normal {| question_text := questionText;
            question_type := excel_type questionType;
            options :=
              if (questionType =? "mcq")%string
                 || (questionType =? "multiple choice")%string
              then JArr (map JStr opts) else JNull;
            correct_answer := JStr (trim answerText);
            marks := marks_;
            row_number := index + 2 |})))))).

(** *** The route *)

(** The uploaded file: its name, the rows of its first sheet as the
    spreadsheet reader gives them (an error when it cannot), and its
    content as text. *)
Record upload : Type := {
  originalname : string;
  sheet : completion (list value);
  content : string
}.

Definition questions_of (file : upload)
  : completion (string + list question) :=
  let extension := fileExtension (originalname file) in
  if (extension =? "xlsx")%string || (extension =? "xls")%string then
    cbind (sheet file) (fun data =>
    cbind (map_rows excel_row data 0) (fun qs =>
    cbind (filter_text qs) (fun kept => Normal (inr kept))))
  else if (extension =? "json")%string then json_questions (content file)
  else if (extension =? "csv")%string then csv_questions (content file)
  else
    Normal (inl ("Unsupported file format. Please use Excel (.xlsx, .xls), "
                 ++ "JSON (.json), or CSV (.csv)")).

(** [POST /quizzes/import-questions] *)
Definition import_route (file : option upload) : reply (list question) :=
  match file with
  | None => Refused 400 "No file uploaded"
  | Some f =>
      match questions_of f with
      | Normal (inl message) => Refused 400 message
      | Normal (inr []) => Refused 400 "No valid questions found in the file"
      | Normal (inr (q :: qs)) => Sent (q :: qs)
      | Return | Throw _ => Refused 500 "Server error"
      end
  end.

End Formats.

End ImportQuestions.

(** What every imported question is expected to have: a text that is not
    blank, one of the three types, and a row number from 1 on. *)
Definition well_imported (q : ImportQuestions.question) : Prop :=
  (exists text,
     ImportQuestions.question_text q = JStr text
     /\ trim text <> EmptyString)
  /\ In (ImportQuestions.question_type q)
        ["mcq"; "short_answer"; "long_answer"]
  /\ 1 <= ImportQuestions.row_number q.

(** The part of it that each row has before the rows without text are
    dropped. *)
Definition typed (q : ImportQuestions.question) : Prop :=
  In (ImportQuestions.question_type q)
     ["mcq"; "short_answer"; "long_answer"]
  /\ 1 <= ImportQuestions.row_number q.

(** ** The analysis route of the teacher *)

(** The tables the teacher routes read: those of the student routes and
    the assignment of teachers to subjects, rows [(teacher, subject)]. *)
Record School : Type := {
  school_db : DB;
  teacher_subjects : list (Z * Z)
}.

(** [Number.MAX_SAFE_INTEGER] and [Number.isSafeInteger] on an integer:
    the integers that [parseInt] and [toString] carry without rounding. *)
Definition MAX_SAFE_INTEGER : Z := 2 ^ 53 - 1.

Definition isSafeInteger (n : Z) : bool :=
  (- MAX_SAFE_INTEGER <=? n) && (n <=? MAX_SAFE_INTEGER).

(** [parseInt(req.params.quiz_id.toString().split(':')[0])] *)
Definition parseQuizId (param : string) : option Z :=
  parseInt (hd EmptyString (ImportQuestions.split ":" param)).

(** [SELECT * FROM teacher_subjects WHERE teacher_id = ? AND subject_id = ?] *)
Definition select_access (teacher subject : Z) (s : School) : list (Z * Z) :=
  filter (fun r => (fst r =? teacher) && (snd r =? subject))
         (teacher_subjects s).

(** [SELECT answers FROM quiz_attempts
     WHERE quiz_id = ? AND submitted_at IS NOT NULL] *)
Definition submitted_answers (quiz : Z) (db : DB) : list value :=
  map answers
      (filter (fun a => (attempt_quiz_id a =? quiz) && submitted a)
              (quiz_attempts db)).

(** A row of the analysis: the id and the marks of the question with its
    counts. *)
Record AnalysisRow : Type := {
  analysed_question : Z;
  analysed_marks : Z;
  analysed_correct : Z;
  analysed_attempts : Z;
  analysed_accuracy : Q
}.

Section AnalysisRoute.

Variable JSON_parse : string -> option value.

(** The callback of [questions.map] of the analysis route. *)
Definition analysis_row (attempts : list value) (question : Question)
  (index : nat) : AnalysisRow :=
  let count := correctCount JSON_parse question index attempts in
  let totalAttempts := Z.of_nat (List.length attempts) in
  {| analysed_question := question_id question;
     analysed_marks := marks question;
     analysed_correct := count;
     analysed_attempts := totalAttempts;
     analysed_accuracy := accuracy_percentage count totalAttempts |}.

(** [GET /analysis/quiz/:quiz_id/questions] *)
Definition analysis_route (teacher : Z) (quiz_id_param : string)
  (s : School) : reply (list AnalysisRow) :=
  match parseQuizId quiz_id_param with
  | None => Refused 400 "Invalid quiz ID"
  | Some quizId =>
      match select_quiz quizId (school_db s) with
      | [] => Refused 404 "Quiz not found"
      | quiz :: _ =>
          match select_access teacher (subject_id quiz) s with
          | [] => Refused 403 "You do not have access to this quiz"
          | _ :: _ =>
              let questions := select_questions quizId (school_db s) in
              let attempts := submitted_answers quizId (school_db s) in
              Sent (mapi (analysis_row attempts) questions 0%nat)
          end
      end
  end.

End AnalysisRoute.

(** The ids of the attempts are distinct and below the counter of the
    table, as [id INT AUTO_INCREMENT PRIMARY KEY] keeps them. *)
Definition attempt_ids_fresh (db : DB) : Prop :=
  NoDup (map attempt_id (quiz_attempts db))
  /\ Forall (fun a => attempt_id a < auto_increment db) (quiz_attempts db).


(** ** Further rows of the examples *)

(** Answers that name the first option of [capital] in capitals and with
    white space around, and the same in small letters. *)
Definition padded : value := JObj [("0", JStr " PARIS ")].

Definition plain : value := JObj [("0", JStr "paris")].

(** Answers for the two questions of [open_db]. *)
Definition both : value :=
  JObj [("0", JStr "Paris"); ("1", JStr " seine")].

(** A CSV file of three rows, the second of them without question text,
    with an empty line in between. *)
Definition line (s : string) : string :=
  s ++ String ImportQuestions.newline EmptyString.

Definition csv_file : ImportQuestions.upload :=
  {| ImportQuestions.originalname := "questions.CSV";
     ImportQuestions.sheet := Throw TypeError;
     ImportQuestions.content :=
       line "Question,Type,Option1,Option2,Correct Answer,Marks"
       ++ line "Capital of France?,MCQ,Paris,London,Paris,2"
       ++ line EmptyString
       ++ line " ,short,,,x,1"
       ++ line "River?,Short,,,Seine" |}.

(** A CSV file whose header names no question column. *)
Definition csv_without_header : ImportQuestions.upload :=
  {| ImportQuestions.originalname := "rows.csv";
     ImportQuestions.sheet := Throw TypeError;
     ImportQuestions.content :=
       line "Text,Type" ++ line "Capital of France?,mcq" |}.

(** The school of [open_db], in which teacher 9 teaches subject 7. *)
Definition open_school : School :=
  {| school_db := open_db; teacher_subjects := [(9, 7)] |}.

(** The questions that the import reads from [csv_file]. *)
Definition csv_imported : list ImportQuestions.question :=
  [{| ImportQuestions.question_text := JStr "Capital of France?";
      ImportQuestions.question_type := "mcq";
      ImportQuestions.options := JArr [JStr "Paris"; JStr "London"];
      ImportQuestions.correct_answer := JStr "Paris";
      ImportQuestions.marks := JStr "2";
      ImportQuestions.row_number := 2 |};
   {| ImportQuestions.question_text := JStr "River?";
      ImportQuestions.question_type := "short_answer";
      ImportQuestions.options := JNull;
      ImportQuestions.correct_answer := JStr "Seine";
      ImportQuestions.marks := JUndefined;
      ImportQuestions.row_number := 4 |}].

(** ** Tactics *)

(** Unfold a callback down to its case analysis. *)
Ltac run_m :=
  cbv [grade_question analyze_attempt callback try_catch grade_body
       analyze_body bind lift ret add return_ console_log normalize cbind].

(** Close a case in which the total is left as it was. *)
Ltac unchanged :=
  simpl; rewrite ?Z.add_0_r; split; [reflexivity|discriminate].

(** * Properties *)

(** ** Strings and property keys *)

Lemma toLowerCase_empty (s : string) :
  toLowerCase s = EmptyString <-> s = EmptyString.
Proof.
  destruct s; simpl; split; intro H; try reflexivity; discriminate H.
Qed.

Lemma array_index_nonneg (n : Z) :
  0 <= n -> array_index (Z_toString n) = Some (Z.to_nat n).
Proof.
  intros Hn. unfold array_index, Z_toString.
  destruct n as [|p|p]; [reflexivity | | lia].
  simpl NilZero.string_of_int.
  rewrite NilZero.usu by apply DecimalPos.Unsigned.to_uint_nonnil.
  unfold Z.of_uint. rewrite DecimalPos.Unsigned.of_to. simpl.
  now rewrite String.eqb_refl.
Qed.

Lemma array_index_neg (n : Z) : n < 0 -> array_index (Z_toString n) = None.
Proof.
  intros Hn. destruct n as [|p|p]; try lia.
  unfold array_index, Z_toString. simpl.
  now destruct (NilEmpty.uint_of_string _).
Qed.

Lemma get_num_array (elems : list value) (n : Z) :
  get_num (JArr elems) n =
  Normal (if 0 <=? n then of_option (nth_error elems (Z.to_nat n))
          else JUndefined).
Proof.
  unfold get_num, get. destruct (Z.leb_spec 0 n) as [H|H].
  - now rewrite array_index_nonneg.
  - now rewrite array_index_neg.
Qed.

(** ** The answer lookup *)

Lemma get_completes (v : value) (k : string) :
  (exists x, get v k = Normal x) \/ get v k = Throw TypeError.
Proof.
  destruct v; simpl; eauto;
    destruct (array_index k); eauto.
Qed.

Lemma get_throw_all (v : value) (k k' : string) :
  get v k = Throw TypeError -> get v k' = Throw TypeError.
Proof.
  destruct v; simpl; try discriminate; auto;
    destruct (array_index k); discriminate.
Qed.

Lemma get_normal_all (v : value) (k k' : string) (x : value) :
  get v k = Normal x -> exists x', get v k' = Normal x'.
Proof.
  intros H. destruct (get_completes v k') as [Hn|Ht]; [exact Hn|].
  apply (get_throw_all v k' k) in Ht. congruence.
Qed.

Lemma lookupAnswer_is_first_truthy (answers : value) (index : nat) :
  lookupAnswer answers index = lookup_first_truthy answers index.
Proof.
  unfold lookupAnswer, lookup_first_truthy, candidates, get_num, or_else.
  change (Z_toString (Z.of_nat index)) with (nat_toString index).
  destruct (get_completes answers (nat_toString index)) as [[a Ha]|Ha].
  - destruct (get_normal_all _ _ ("question-" ++ nat_toString index) _ Ha)
      as [c Hc].
    rewrite Ha, Hc. unfold first_of. simpl.
    destruct (truthy a) eqn:Ta; repeat (simpl; rewrite ?Ta);
      [reflexivity|].
    destruct (truthy c) eqn:Tc; repeat (simpl; rewrite ?Tc); reflexivity.
  - rewrite Ha. reflexivity.
Qed.

(** C2 as stated fails: under the key of highest priority the mapping holds
    the number 0, a defined value; the lookup passes it over and uses the
    value under ["question-0"]. *)
Lemma lookup_skips_defined_falsy_value :
  get_num zero_then_named 0 = Normal (JNum 0)
  /\ defined (JNum 0) = true
  /\ lookup_first_defined zero_then_named 0%nat = Normal (JNum 0)
  /\ lookupAnswer zero_then_named 0%nat = Normal (JStr "b")
  /\ lookupAnswer zero_then_named 0%nat
     <> lookup_first_defined zero_then_named 0%nat.
Proof. repeat split. discriminate. Qed.

(** C2, amended: the answer used for the question at [index] is the first
    truthy value among [answers[index]], [answers[String(index)]] and
    [answers["question-" + index]], in that order, and the empty text when
    none is truthy; the first two subscripts name the same property. *)
Theorem lookup_takes_first_truthy (answers : value) (index : nat) :
  lookupAnswer answers index = lookup_first_truthy answers index
  /\ get_num answers (Z.of_nat index) = get answers (nat_toString index).
Proof. split; [apply lookupAnswer_is_first_truthy|reflexivity]. Qed.

(** A truthy value under the index is used whatever the named key holds. *)
Lemma lookup_index_wins answers index v :
  get answers (nat_toString index) = Normal v ->
  truthy v = true ->
  lookupAnswer answers index = Normal v.
Proof.
  intros Hv Ht. rewrite lookupAnswer_is_first_truthy.
  unfold lookup_first_truthy, candidates, get_num.
  change (Z_toString (Z.of_nat index)) with (nat_toString index).
  destruct (get_normal_all _ _ ("question-" ++ nat_toString index) _ Hv)
    as [w Hw].
  rewrite Hv, Hw. unfold first_of. simpl. now rewrite Ht.
Qed.

(** A falsy value under the index gives way to a truthy named one. *)
Lemma lookup_named_after_falsy answers index v w :
  get answers (nat_toString index) = Normal v ->
  truthy v = false ->
  get answers ("question-" ++ nat_toString index) = Normal w ->
  truthy w = true ->
  lookupAnswer answers index = Normal w.
Proof.
  intros Hv Hf Hw Ht. rewrite lookupAnswer_is_first_truthy.
  unfold lookup_first_truthy, candidates, get_num.
  change (Z_toString (Z.of_nat index)) with (nat_toString index).
  rewrite Hv, Hw. unfold first_of. simpl. now rewrite Hf, Ht.
Qed.

(** ** The callbacks and their decisions *)

Section CallbackFacts.

Variable JSON_parse : string -> option value.

Lemma grade_body_awarded answers question index (s : Z) :
  snd (grade_body JSON_parse answers question index s) =
    s + (if awarded JSON_parse answers question index
         then marks question else 0)
  /\ (awarded JSON_parse answers question index = true ->
      fst (grade_body JSON_parse answers question index s) = Normal tt).
Proof.
  unfold awarded. run_m.
  destruct (lookupAnswer answers index) as [sa| |e]; try unchanged.
  destruct (truthy sa); try unchanged.
  destruct (toString sa) as [str| |e]; try unchanged.
  destruct (normalizedCorrect question) as [nc| |e];
    destruct (trim str =? EmptyString)%string; try unchanged.
  destruct (nc =? EmptyString)%string; try unchanged.
  destruct ((question_type question =? "mcq")%string
            && truthy (options question)).
  - destruct (parsedOptions JSON_parse question) as [opts| |e];
      try unchanged.
    destruct (toLowerCase (trim str) =? nc)%string; [now split|].
    unfold option_matches.
    destruct (parseInt nc) as [n|]; try unchanged.
    destruct (get_num opts n) as [opt| |e]; try unchanged.
    destruct (truthy opt); try unchanged.
    run_m.
    destruct (toString opt) as [t| |e]; try unchanged.
    destruct (toLowerCase (trim str) =? toLowerCase (trim t))%string;
      try unchanged.
    now split.
  - destruct (toLowerCase (trim str) =? nc)%string; try unchanged.
    now split.
Qed.

Lemma grade_question_awarded answers question index (s : Z) :
  grade_question JSON_parse answers question index s =
  (Normal tt,
   s + if awarded JSON_parse answers question index
       then marks question else 0).
Proof.
  destruct (grade_body_awarded answers question index s) as [Hs Hc].
  unfold grade_question, callback, try_catch, console_log, ret.
  destruct (grade_body JSON_parse answers question index s) as [[[]| |e] s'];
    simpl in *; now subst.
Qed.

Lemma attemptAnswers_pure stored (s : Z) :
  attemptAnswers JSON_parse stored s =
  (fst (attemptAnswers JSON_parse stored 0), s).
Proof.
  unfold attemptAnswers. run_m.
  destruct (truthy stored); [|reflexivity].
  destruct (is_string stored).
  - destruct (parse JSON_parse stored); reflexivity.
  - destruct (is_object stored); reflexivity.
Qed.

Lemma analyze_attempt_counted question index stored (k : nat) (s : Z) :
  analyze_attempt JSON_parse question index stored k s =
  (Normal tt,
   s + if counted JSON_parse question index stored then 1 else 0).
Proof.
  unfold counted. run_m. rewrite attemptAnswers_pure.
  destruct (attemptAnswers JSON_parse stored 0) as [[answers| |e] s0];
    simpl; try (now rewrite Z.add_0_r).
  destruct (lookupAnswer answers index) as [sa| |e]; simpl;
    try (now rewrite Z.add_0_r).
  destruct (truthy sa); simpl; try (now rewrite Z.add_0_r).
  destruct (toString sa) as [str| |e]; simpl; try (now rewrite Z.add_0_r).
  destruct (normalizedCorrect question) as [nc| |e]; simpl;
    try (now rewrite Z.add_0_r).
  destruct ((question_type question =? "mcq")%string
            && truthy (options question)); simpl.
  - destruct (parsedOptions JSON_parse question) as [opts| |e]; simpl;
      try (destruct (toLowerCase (trim str) =? nc)%string; simpl;
           now rewrite ?Z.add_0_r).
    destruct (toLowerCase (trim str) =? nc)%string; simpl; [reflexivity|].
    destruct (isArray opts); simpl; try (now rewrite Z.add_0_r).
    unfold option_matches.
    destruct (parseInt nc) as [n|]; simpl; try (now rewrite Z.add_0_r).
    destruct (get_num opts n) as [opt| |e]; simpl;
      try (now rewrite Z.add_0_r).
    destruct (truthy opt); simpl; try (now rewrite Z.add_0_r).
    run_m.
    destruct (toString opt) as [t| |e]; simpl; try (now rewrite Z.add_0_r).
    destruct (toLowerCase (trim str) =? toLowerCase (trim t))%string; simpl;
      try (now rewrite Z.add_0_r); reflexivity.
  - destruct (toLowerCase (trim str) =? nc)%string; simpl;
      try (now rewrite Z.add_0_r); reflexivity.
Qed.

Lemma forEach_grade answers questions index (s : Z) :
  forEach (grade_question JSON_parse answers) questions index s =
  (Normal tt, s + credits JSON_parse answers questions index).
Proof.
  revert index s. induction questions as [|q rest IH]; intros index s; simpl.
  - unfold ret. now rewrite Z.add_0_r.
  - unfold bind. rewrite grade_question_awarded, IH. f_equal. ring.
Qed.

Lemma forEach_analyze question index attempts (k : nat) (s : Z) :
  forEach (analyze_attempt JSON_parse question index) attempts k s =
  (Normal tt, s + tallies JSON_parse question index attempts).
Proof.
  revert k s. induction attempts as [|a rest IH]; intros k s; simpl.
  - unfold ret. now rewrite Z.add_0_r.
  - unfold bind. rewrite analyze_attempt_counted, IH. f_equal. ring.
Qed.

Lemma totalScore_credits answers questions :
  totalScore JSON_parse questions answers =
  credits JSON_parse answers questions 0.
Proof. unfold totalScore, grade_run. now rewrite forEach_grade. Qed.

Lemma credits_nonneg answers questions index :
  Forall (fun q => 0 <= marks q) questions ->
  0 <= credits JSON_parse answers questions index.
Proof.
  intros H. revert index. induction H as [|q rest Hq _ IH]; intros index;
    simpl; [lia|].
  specialize (IH (S index)).
  destruct (awarded JSON_parse answers q index); lia.
Qed.

End CallbackFacts.

(** C7: grading never raises.  Whatever the questions and the answers, the
    [forEach] of the submit route completes normally, its total being the
    sum of the marks of the questions it awards; a question whose body does
    not complete normally (an error thrown by a malformed answer, option or
    correct answer, or the early [return]) leaves the total as it was, and
    its callback still completes normally, so the next questions are graded.
    The analysis loop completes normally as well, for every question and
    every list of stored answers. *)
Theorem grading_never_raises (JSON_parse : string -> option value)
  (questions : list Question) (answers : value) :
  grade_run JSON_parse questions answers =
    (Normal tt, credits JSON_parse answers questions 0)
  /\ (forall question index s,
        (exists d, grade_body JSON_parse answers question index s =
                   (Normal tt, s + d))
        \/ (fst (grade_body JSON_parse answers question index s) <> Normal tt
            /\ snd (grade_body JSON_parse answers question index s) = s
            /\ grade_question JSON_parse answers question index s =
               (Normal tt, s)))
  /\ (forall question index attempts,
        analyze_run JSON_parse question index attempts =
        (Normal tt, tallies JSON_parse question index attempts)).
Proof.
  split; [|split].
  - unfold grade_run. now rewrite forEach_grade.
  - intros question index s.
    destruct (grade_body_awarded JSON_parse answers question index s)
      as [Hs Hc].
    pose proof (grade_question_awarded JSON_parse answers question index s)
      as Hq.
    destruct (awarded JSON_parse answers question index) eqn:Ha.
    + left. exists (marks question).
      specialize (Hc eq_refl).
      destruct (grade_body JSON_parse answers question index s) as [c s'].
      simpl in *. now subst.
    + rewrite Z.add_0_r in Hs, Hq.
      destruct (grade_body JSON_parse answers question index s)
        as [[[]| |e] s'] eqn:Hb; simpl in *; subst.
      * left. exists 0. now rewrite Z.add_0_r.
      * right. repeat split; [discriminate|exact Hq].
      * right. repeat split; [discriminate|exact Hq].
  - intros question index attempts. unfold analyze_run.
    now rewrite forEach_analyze.
Qed.


(** An answer that cannot be printed: its question earns nothing, the next
    one is graded. *)
Example unprintable_answer_is_skipped :
  let answers :=
    JObj [("0", JObj [("toString", JNum 1)]); ("1", JStr " seine")] in
  fst (grade_body Json.read answers capital_decoded 0%nat 0)
  = Throw TypeError
  /\ grade_run Json.read [capital_decoded; second] answers = (Normal tt, 5).
Proof. split; reflexivity. Qed.

(** ** Multiple-choice questions *)

Lemma first_of_truthy (vs : list value) :
  truthy (first_of truthy vs) = true \/ first_of truthy vs = JStr EmptyString.
Proof.
  unfold first_of. destruct (find truthy vs) as [v|] eqn:H; [left|now right].
  now apply find_some in H.
Qed.

Lemma lookupAnswer_truthy_or_empty answers index studentAnswer :
  lookupAnswer answers index = Normal studentAnswer ->
  truthy studentAnswer = true \/ studentAnswer = JStr EmptyString.
Proof.
  rewrite lookupAnswer_is_first_truthy. unfold lookup_first_truthy.
  destruct (candidates answers index) as [vs| |e]; simpl; try discriminate.
  intros [= <-]. apply first_of_truthy.
Qed.

Lemma parseInt_empty : parseInt EmptyString = None.
Proof. reflexivity. Qed.

Lemma nth_error_map_JStr (os : list string) (n : nat) :
  nth_error (map JStr os) n = option_map JStr (nth_error os n).
Proof. apply nth_error_map. Qed.

Section Mcq.

Variable JSON_parse : string -> option value.

Lemma option_matches_strings (os : list string) (nc ns : string) :
  ns <> EmptyString ->
  option_matches (JArr (map JStr os)) nc ns = true <->
  exists (n : Z) (text : string),
    parseInt nc = Some n /\ 0 <= n
    /\ nth_error os (Z.to_nat n) = Some text
    /\ ns = toLowerCase (trim text).
Proof.
  intros Hns. unfold option_matches. split.
  - destruct (parseInt nc) as [n|]; [|discriminate].
    rewrite get_num_array.
    destruct (Z.leb_spec 0 n) as [Hn|Hn]; [|discriminate].
    rewrite nth_error_map_JStr.
    destruct (nth_error os (Z.to_nat n)) as [text|] eqn:Hnth;
      [|discriminate].
    simpl. intros H. apply andb_true_iff in H as [_ H].
    apply String.eqb_eq in H. exists n, text. repeat split; auto.
  - intros (n & text & Hp & Hn & Hnth & Heq).
    rewrite Hp, get_num_array.
    destruct (Z.leb_spec 0 n) as [_|Hneg]; [|lia].
    rewrite nth_error_map_JStr, Hnth. simpl.
    apply andb_true_iff. split.
    + destruct text as [|c text']; [|reflexivity].
      subst ns. now contradiction Hns.
    + now apply String.eqb_eq.
Qed.

End Mcq.

(** C1 as stated fails: the number 0 is submitted for [capital_decoded],
    whose correct answer is the text 0.  The normalized form of the
    submitted value is the normalized correct answer, which is an accepted
    form; the lookup passes the falsy value over, the submit route adds no
    marks and the analysis counts nothing. *)
Lemma matching_number_is_not_accepted :
  question_type capital_decoded = "mcq"
  /\ parsedOptions Json.read capital_decoded
     = Normal (JArr (map JStr ["Paris"; "London"; "Berlin"]))
  /\ lookup_first_defined zero_answer 0%nat = Normal (JNum 0)
  /\ normalize (JNum 0) = Normal "0"
  /\ normalizedCorrect capital_decoded = Normal "0"
  /\ accepted_form "0" ["Paris"; "London"; "Berlin"] "0"
  /\ awarded Json.read zero_answer capital_decoded 0%nat = false
  /\ totalScore Json.read [capital_decoded] zero_answer = 0
  /\ counted Json.read capital_decoded 0%nat zero_answer = false.
Proof.
  do 5 (split; [reflexivity|]). split; [now left|].
  repeat split.
Qed.

(** Nor is the index read as a whole integer: [parseInt] stops at the
    first character that is no digit, so the correct answer [1abc], which
    is no integer, selects the option 1. *)
Example index_with_trailing_text :
  decimal_index "1abc" = None
  /\ parseInt "1abc" = Some 1
  /\ normalizedCorrect suffixed = Normal "1abc"
  /\ ~ accepted_form "1abc" ["Paris"; "London"] "london"
  /\ awarded Json.read london suffixed 0%nat = true
  /\ totalScore Json.read [suffixed] london = 3.
Proof.
  do 3 (split; [reflexivity|]). split; [|split; reflexivity].
  intros [H|(n & text & H & _)]; discriminate.
Qed.

(** A question all of whose candidate values are falsy earns nothing,
    whatever their texts. *)
Lemma falsy_answer_is_not_accepted (JSON_parse : string -> option value)
  (answers : value) (question : Question) (index : nat) (vs : list value) :
  candidates answers index = Normal vs ->
  Forall (fun v => truthy v = false) vs ->
  awarded JSON_parse answers question index = false.
Proof.
  intros Hc Hf. unfold awarded.
  rewrite lookupAnswer_is_first_truthy. unfold lookup_first_truthy.
  rewrite Hc. simpl. unfold first_of.
  assert (Hnone : find truthy vs = None).
  { clear Hc. induction Hf as [|v rest Hv _ IH]; simpl; [reflexivity|].
    rewrite Hv. exact IH. }
  rewrite Hnone. reflexivity.
Qed.

(** The decision on an answer that is not blank. *)
Lemma mcq_nonblank_answer
  (JSON_parse : string -> option value)
  (answers : value) (question : Question) (index : nat)
  (studentAnswer : value) (s nc : string) (os : list string) :
  question_type question = "mcq" ->
  truthy (options question) = true ->
  parsedOptions JSON_parse question = Normal (JArr (map JStr os)) ->
  normalizedCorrect question = Normal nc ->
  lookupAnswer answers index = Normal studentAnswer ->
  toString studentAnswer = Normal s ->
  trim s <> EmptyString ->
  awarded JSON_parse answers question index = true
  <-> accepted_form_parseInt nc os (toLowerCase (trim s)).
Proof.
  intros Hty Hopt Hparse Hnc Hsa Hs Hblank.
  assert (Hns : toLowerCase (trim s) <> EmptyString)
    by (intros H; apply Hblank; now apply toLowerCase_empty).
  assert (Htr : truthy studentAnswer = true).
  { destruct (lookupAnswer_truthy_or_empty _ _ _ Hsa) as [H|H]; [exact H|].
    subst studentAnswer. simpl in Hs. injection Hs as <-.
    now contradiction Hblank. }
  unfold awarded. rewrite Hsa, Htr, Hs, Hnc, Hty, Hopt, Hparse. simpl.
  destruct (trim s =? EmptyString)%string eqn:Hb;
    [apply String.eqb_eq in Hb; contradiction|]. simpl.
  unfold accepted_form_parseInt.
  rewrite <- (option_matches_strings os nc _ Hns).
  destruct (nc =? EmptyString)%string eqn:Hne; simpl.
  - apply String.eqb_eq in Hne. subst nc. split; [discriminate|].
    intros [H|H]; [contradiction|].
    unfold option_matches in H. rewrite parseInt_empty in H. discriminate.
  - rewrite orb_true_iff, String.eqb_eq. reflexivity.
Qed.

(** C1, amended: for a multiple-choice question whose options read as a
    list of texts, the submit route adds the marks of the question if and
    only if the answer that the lookup yields, the first truthy value
    under the three keys, is not blank after trimming, and either its
    normalized form is the normalized correct answer, or [parseInt] reads
    the normalized correct answer as an index within the options and the
    normalized answer is the normalized text of that option. *)
Theorem mcq_accepts_text_or_indexed_option
  (JSON_parse : string -> option value)
  (answers : value) (question : Question) (index : nat)
  (os : list string) :
  question_type question = "mcq" ->
  truthy (options question) = true ->
  parsedOptions JSON_parse question = Normal (JArr (map JStr os)) ->
  (awarded JSON_parse answers question index = true
   <-> exists (studentAnswer : value) (s nc : string),
         lookupAnswer answers index = Normal studentAnswer
         /\ toString studentAnswer = Normal s
         /\ normalizedCorrect question = Normal nc
         /\ trim s <> EmptyString
         /\ accepted_form_parseInt nc os (toLowerCase (trim s)))
  /\ forall total,
       grade_question JSON_parse answers question index total =
       (Normal tt,
        total + if awarded JSON_parse answers question index
                then marks question else 0).
Proof.
  intros Hty Hopt Hparse.
  split; [|intros total; apply grade_question_awarded].
  split.
  - intros H. pose proof H as H0. unfold awarded in H0.
    destruct (lookupAnswer answers index) as [sa| |e] eqn:Hsa;
      try discriminate.
    destruct (truthy sa); [|discriminate]. simpl in H0.
    destruct (toString sa) as [s| |e] eqn:Hs; try discriminate.
    destruct (normalizedCorrect question) as [nc| |e] eqn:Hnc;
      try discriminate.
    destruct (trim s =? EmptyString)%string eqn:Hb; [discriminate|].
    apply String.eqb_neq in Hb.
    exists sa, s, nc. repeat split; auto.
    now apply (mcq_nonblank_answer JSON_parse answers question index sa).
  - intros (sa & s & nc & Hsa & Hs & Hnc & Hblank & Hform).
    now apply (mcq_nonblank_answer JSON_parse answers question index sa s
                 nc os).
Qed.

(** The analysis decides such a question the same way. *)
Lemma analysis_counts_text_or_indexed_option
  (JSON_parse : string -> option value)
  (stored answers : value) (question : Question) (index : nat)
  (studentAnswer : value) (s nc : string) (os : list string) :
  question_type question = "mcq" ->
  truthy (options question) = true ->
  parsedOptions JSON_parse question = Normal (JArr (map JStr os)) ->
  normalizedCorrect question = Normal nc ->
  attemptAnswers JSON_parse stored 0 = (Normal answers, 0) ->
  lookupAnswer answers index = Normal studentAnswer ->
  toString studentAnswer = Normal s ->
  trim s <> EmptyString ->
  counted JSON_parse question index stored = true
  <-> accepted_form_parseInt nc os (toLowerCase (trim s)).
Proof.
  intros Hty Hopt Hparse Hnc Hst Hsa Hs Hblank.
  assert (Hns : toLowerCase (trim s) <> EmptyString)
    by (intros H; apply Hblank; now apply toLowerCase_empty).
  assert (Htr : truthy studentAnswer = true).
  { destruct (lookupAnswer_truthy_or_empty _ _ _ Hsa) as [H|H]; [exact H|].
    subst studentAnswer. simpl in Hs. injection Hs as <-.
    now contradiction Hblank. }
  unfold counted. rewrite Hst, Hsa, Htr, Hs, Hnc, Hty, Hopt, Hparse. simpl.
  unfold accepted_form_parseInt.
  rewrite <- (option_matches_strings os nc _ Hns).
  now rewrite orb_true_iff, String.eqb_eq.
Qed.

Lemma mcq_accepts_witness :
  (awarded Json.read (JObj [("question-0", JStr " PARIS ")]) capital 0%nat
   = true
   <-> exists (studentAnswer : value) (s nc : string),
         lookupAnswer (JObj [("question-0", JStr " PARIS ")]) 0%nat
         = Normal studentAnswer
         /\ toString studentAnswer = Normal s
         /\ normalizedCorrect capital = Normal nc
         /\ trim s <> EmptyString
         /\ accepted_form_parseInt nc ["Paris"; "London"; "Berlin"]
              (toLowerCase (trim s)))
  /\ forall total,
       grade_question Json.read (JObj [("question-0", JStr " PARIS ")])
         capital 0%nat total =
       (Normal tt,
        total + if awarded Json.read (JObj [("question-0", JStr " PARIS ")])
                     capital 0%nat
                then marks capital else 0).
Proof.
  apply (mcq_accepts_text_or_indexed_option Json.read
           (JObj [("question-0", JStr " PARIS ")]) capital 0%nat
           ["Paris"; "London"; "Berlin"]);
    reflexivity.
Defined.

(** On the rows of the examples: the text of option 0 is accepted through
    the index, in any letter case; the text of another option, a blank
    answer and the number 0 are not. *)
Example capital_answers :
  awarded Json.read (JObj [("question-0", JStr " PARIS ")]) capital 0%nat
  = true
  /\ accepted_form_parseInt "0" ["Paris"; "London"; "Berlin"] "paris"
  /\ awarded Json.read london capital 0%nat = false
  /\ ~ accepted_form_parseInt "0" ["Paris"; "London"; "Berlin"] "london"
  /\ awarded Json.read blanks capital 0%nat = false
  /\ awarded Json.read zero_answer capital 0%nat = false.
Proof.
  split; [reflexivity|]. split.
  - right. exists 0, "Paris". repeat split. lia.
  - split; [reflexivity|]. split; [|split; reflexivity].
    intros [H|(n & text & Hp & _ & Hnth & Heq)]; [discriminate|].
    injection Hp as <-. simpl in Hnth. injection Hnth as <-. discriminate.
Qed.

(** The scenarios of the specification: the option text of index 0 earns
    the 10 marks, another option earns none. *)
Example capital_paris :
  totalScore Json.read [capital] (JObj [("0", JStr "paris")]) = 10
  /\ totalScore Json.read [capital] (JObj [("0", JStr "London")]) = 0
  /\ totalScore Json.read [capital_decoded] (JArr [JStr "Paris"]) = 10
  /\ totalScore Json.read [capital_decoded; second]
       (JObj [("0", JStr "paris")]) = 10.
Proof. repeat split; vm_compute; reflexivity. Qed.

(** ** Options that do not parse *)

Section Unparseable.

Variable JSON_parse : string -> option value.

Lemma unparseable_options_not_awarded answers question index text :
  question_type question = "mcq" ->
  options question = JStr text ->
  text <> EmptyString ->
  JSON_parse text = None ->
  awarded JSON_parse answers question index = false.
Proof.
  intros Hty Hopt Htext Hparse. unfold awarded, parsedOptions, parse.
  rewrite Hty, Hopt, Hparse. simpl.
  destruct text; [contradiction|]. simpl.
  destruct (lookupAnswer answers index) as [sa| |e]; try reflexivity.
  destruct (truthy sa); try reflexivity.
  destruct (toString sa); try reflexivity.
  destruct (normalizedCorrect question); try reflexivity. simpl.
  now rewrite !andb_false_r.
Qed.

Lemma unparseable_options_counted_by_text question index stored answers
  studentAnswer s nc text :
  question_type question = "mcq" ->
  options question = JStr text ->
  text <> EmptyString ->
  JSON_parse text = None ->
  attemptAnswers JSON_parse stored 0 = (Normal answers, 0) ->
  lookupAnswer answers index = Normal studentAnswer ->
  truthy studentAnswer = true ->
  toString studentAnswer = Normal s ->
  normalizedCorrect question = Normal nc ->
  counted JSON_parse question index stored
  = (toLowerCase (trim s) =? nc)%string.
Proof.
  intros Hty Hopt Htext Hparse Hst Hsa Htr Hs Hnc.
  unfold counted, parsedOptions, parse.
  rewrite Hst, Hsa, Htr, Hs, Hnc, Hty, Hopt, Hparse.
  destruct text; [contradiction|]. reflexivity.
Qed.

End Unparseable.

(** C4: the options of [broken] do not parse.  The answer [paris] is the
    normalized correct answer, the analysis counts it, and the submit route
    gives it no marks: the [catch] of the submit route only logs, where the
    [catch] of the analysis compares the texts. *)
Theorem unparseable_options_lose_the_marks :
  parsedOptions Json.read broken = Throw SyntaxError
  /\ normalize (JStr "paris") = normalizedCorrect broken
  /\ grade_run Json.read [broken] (JObj [("0", JStr "paris")])
     = (Normal tt, 0)
  /\ analyze_run Json.read broken 0%nat [JObj [("0", JStr "paris")]]
     = (Normal tt, 1).
Proof. repeat split; vm_compute; reflexivity. Qed.

(** ** The analysis against the grading *)

(** C8 as stated fails: the options of [keyed] are an object, the correct
    answer is the key 1, and the attempt answered with the text of that
    option.  The submit route subscripts the options and awards the marks;
    the analysis subscripts arrays only and does not count the attempt. *)
Lemma analysis_skips_options_object :
  attemptAnswers Json.read london 0 = (Normal london, 0)
  /\ credit Json.read london keyed 0%nat = marks keyed
  /\ marks keyed = 2
  /\ tally Json.read keyed 0%nat london = 0
  /\ counted Json.read keyed 0%nat london
     <> awarded Json.read london keyed 0%nat.
Proof. repeat split. discriminate. Qed.

(** A blank answer against a question with no correct answer: the analysis
    counts it, the submit route drops it before any comparison. *)
Example analysis_counts_a_blank_answer :
  attemptAnswers Json.read blanks 0 = (Normal blanks, 0)
  /\ tally Json.read essay 0%nat blanks = 1
  /\ credit Json.read blanks essay 0%nat = 0
  /\ marks essay = 5.
Proof. repeat split. Qed.

(** C8, amended: when the stored answers read as [answers], the answer of
    the question is not blank, and the options, where they are used, read
    as an array, the analysis counts the attempt exactly when the submit
    route awards the marks. *)
Theorem analysis_agrees_with_grading
  (JSON_parse : string -> option value)
  (question : Question) (index : nat) (stored answers : value) :
  attemptAnswers JSON_parse stored 0 = (Normal answers, 0) ->
  blank_answer answers index = false ->
  options_are_list JSON_parse question = true ->
  counted JSON_parse question index stored
  = awarded JSON_parse answers question index
  /\ tally JSON_parse question index stored
     = (if counted JSON_parse question index stored then 1 else 0)
  /\ credit JSON_parse answers question index
     = (if awarded JSON_parse answers question index
        then marks question else 0).
Proof.
  intros Hst Hblank Hlist. split; [|split].
  - unfold counted, awarded. rewrite Hst.
    unfold blank_answer in Hblank. unfold options_are_list in Hlist.
    destruct (lookupAnswer answers index) as [sa| |e]; try reflexivity.
    destruct (truthy sa); try reflexivity.
    destruct (toString sa) as [s| |e]; try reflexivity.
    simpl in Hblank. rewrite Hblank.
    assert (Hns : (toLowerCase (trim s) =? EmptyString)%string = false).
    { apply String.eqb_neq. intros H. apply String.eqb_neq in Hblank.
      apply Hblank. now apply toLowerCase_empty. }
    destruct (normalizedCorrect question) as [nc| |e]; try reflexivity.
    simpl.
    destruct ((question_type question =? "mcq")%string
              && truthy (options question)); simpl in *.
    + destruct (parsedOptions JSON_parse question) as [opts| |e];
        try discriminate.
      rewrite Hlist. simpl.
      destruct (nc =? EmptyString)%string eqn:Hnc; simpl; [|reflexivity].
      apply String.eqb_eq in Hnc. subst nc. rewrite Hns.
      unfold option_matches. now rewrite parseInt_empty.
    + destruct (nc =? EmptyString)%string eqn:Hnc; simpl; [|reflexivity].
      apply String.eqb_eq in Hnc. now subst nc.
  - unfold tally. now rewrite analyze_attempt_counted.
  - unfold credit. now rewrite grade_question_awarded.
Qed.

Lemma analysis_agrees_witness :
  counted Json.read capital 0%nat (JStr ("[" ++ quoted "Paris" ++ "]"))
  = awarded Json.read (JArr [JStr "Paris"]) capital 0%nat
  /\ tally Json.read capital 0%nat (JStr ("[" ++ quoted "Paris" ++ "]"))
     = (if counted Json.read capital 0%nat
             (JStr ("[" ++ quoted "Paris" ++ "]"))
        then 1 else 0)
  /\ credit Json.read (JArr [JStr "Paris"]) capital 0%nat
     = (if awarded Json.read (JArr [JStr "Paris"]) capital 0%nat
        then marks capital else 0).
Proof.
  apply (analysis_agrees_with_grading Json.read capital 0%nat
           (JStr ("[" ++ quoted "Paris" ++ "]")) (JArr [JStr "Paris"]));
    reflexivity.
Defined.

(** ** The percentage *)





Lemma toFixed2_range (x : Q) :
  (0 <= x)%Q -> (x <= 100)%Q -> (0 <= toFixed2 x)%Q /\ (toFixed2 x <= 100)%Q.
Proof.
  intros H0 H100. unfold toFixed2.
  pose proof H0 as Hb. apply Qle_bool_iff in Hb. rewrite Hb.
  assert (Hlo : 0 <= Qfloor (x * 100 + (1 # 2))).
  { change 0 with (Qfloor 0). apply Qfloor_resp_le. lra. }
  assert (Hhi : Qfloor (x * 100 + (1 # 2)) <= 10000).
  { change 10000 with (Qfloor (20001 # 2)). apply Qfloor_resp_le. lra. }
  set (n := Qfloor (x * 100 + (1 # 2))) in *.
  unfold Qle. cbn [Qnum Qden]. lia.
Qed.

Lemma ratio_nonneg (sc total : Z) :
  0 <= sc -> 0 < total -> (0 <= inject_Z sc / inject_Z total * 100)%Q.
Proof.
  intros Hs Ht.
  assert (H : (0 <= inject_Z sc / inject_Z total)%Q).
  { apply Qle_shift_div_l.
    - change 0%Q with (inject_Z 0). now rewrite <- Zlt_Qlt.
    - rewrite Qmult_0_l. change 0%Q with (inject_Z 0). now rewrite <- Zle_Qle. }
  lra.
Qed.

Lemma Math_min_range (x : Q) :
  (0 <= x)%Q -> (0 <= Math_min 100 x)%Q /\ (Math_min 100 x <= 100)%Q.
Proof.
  intros Hx. unfold Math_min. destruct (Qle_bool 100 x) eqn:H.
  - split; lra.
  - split; [exact Hx|].
    destruct (Qlt_le_dec x 100) as [Hlt|Hle]; [lra|].
    apply Qle_bool_iff in Hle. congruence.
Qed.




(** The scenarios of the specification, and marks above the total. *)
Example percentages :
  percentageOf open_quiz 10 = (10000 # 100)%Q
  /\ percentageOf open_quiz 5 = (5000 # 100)%Q
  /\ percentageOf open_quiz 0 = (0 # 100)%Q
  /\ percentageOf open_quiz 15 = (10000 # 100)%Q
  /\ accuracy_percentage 3 4 = (7500 # 100)%Q
  /\ accuracy_percentage 0 0 = 0%Q.
Proof. repeat split. Qed.

(** ** The routes *)

Lemma filter_nil_existsb {A} (f : A -> bool) (l : list A) :
  filter f l = [] -> existsb f l = false.
Proof.
  induction l as [|x l IH]; simpl; [reflexivity|].
  destruct (f x); [discriminate|exact IH].
Qed.

Lemma filter_cons_existsb {A} (f : A -> bool) (l : list A) (x : A) rest :
  filter f l = x :: rest -> existsb f l = true.
Proof.
  induction l as [|y l IH]; simpl; [discriminate|].
  destruct (f y); [reflexivity|exact IH].
Qed.

Section RouteFacts.

Variable JSON_parse : string -> option value.
Variable now : Z.

Lemma insert_conflict student id db attempt rest :
  select_attempts id student db = attempt :: rest ->
  insert_attempt id student db = (inl ER_DUP_ENTRY, db).
Proof.
  intros H. unfold insert_attempt, select_attempts in *.
  now rewrite (filter_cons_existsb _ _ _ _ H).
Qed.

Lemma insert_fresh student id db :
  select_attempts id student db = [] ->
  fst (insert_attempt id student db) = inr (auto_increment db)
  /\ select_attempts id student (snd (insert_attempt id student db))
     = [new_attempt (auto_increment db) id student]
  /\ select_questions id (snd (insert_attempt id student db))
     = select_questions id db.
Proof.
  intros H. unfold insert_attempt, select_attempts in *.
  rewrite (filter_nil_existsb _ _ H). simpl. repeat split.
  unfold select_attempts. simpl. rewrite filter_app, H. simpl.
  unfold for_pair. simpl. now rewrite !Z.eqb_refl.
Qed.

(** C5: once the attempt of a student for a quiz has its submission time
    set, every later submit or start request of that student for that quiz
    is rejected and leaves the database as it was, so the stored score,
    percentage, answers and time stay and nothing is graded again; when the
    request reaches the attempt (the quiz is found, the student enrolled,
    and for a submit the answers are an object) the rejection is the
    already-submitted one. *)
Theorem submitted_attempt_is_terminal student id db attempt rest :
  select_attempts id student db = attempt :: rest ->
  submitted attempt = true ->
  (forall answers,
     is_rejected
       (fst (run now (submit_route JSON_parse student id answers) db)) = true
     /\ snd (run now (submit_route JSON_parse student id answers) db) = db)
  /\ (is_rejected (fst (run now (start_route student id) db)) = true
      /\ snd (run now (start_route student id) db) = db)
  /\ (forall quiz quizzes' row rows',
        select_quiz id db = quiz :: quizzes' ->
        select_enrollment student (subject_id quiz) db = row :: rows' ->
        run now (start_route student id) db
        = (Status 403 "You have already submitted this quiz", db)
        /\ forall answers,
             truthy answers = true -> is_object answers = true ->
             run now (submit_route JSON_parse student id answers) db
             = (Status 403 "Quiz already submitted", db)).
Proof.
  intros Hsel Hsub. split; [|split].
  - intros answers. unfold submit_route.
    destruct (negb (truthy answers) || negb (is_object answers));
      [now split|].
    simpl. destruct (select_quiz id db) as [|quiz quizzes']; [now split|].
    simpl.
    destruct (select_enrollment student (subject_id quiz) db);
      [now split|].
    simpl. rewrite Hsel, Hsub. now split.
  - unfold start_route. simpl.
    destruct (select_quiz id db) as [|quiz quizzes']; [now split|].
    simpl.
    destruct (select_enrollment student (subject_id quiz) db);
      [now split|].
    simpl. rewrite Hsel, Hsub. now split.
  - intros quiz quizzes' row rows' Hquiz Henr. split.
    + unfold start_route. simpl. rewrite Hquiz. simpl. rewrite Henr. simpl.
      now rewrite Hsel, Hsub.
    + intros answers Ht Ho. unfold submit_route. rewrite Ht, Ho. simpl.
      rewrite Hquiz. simpl. rewrite Henr. simpl. now rewrite Hsel, Hsub.
Qed.

End RouteFacts.

Lemma submitted_attempt_witness :
  (forall answers,
     is_rejected
       (fst (run 100 (submit_route Json.read 5 1 answers) graded_db)) = true
     /\ snd (run 100 (submit_route Json.read 5 1 answers) graded_db)
        = graded_db)
  /\ (is_rejected (fst (run 100 (start_route 5 1) graded_db)) = true
      /\ snd (run 100 (start_route 5 1) graded_db) = graded_db)
  /\ (forall quiz quizzes' row rows',
        select_quiz 1 graded_db = quiz :: quizzes' ->
        select_enrollment 5 (subject_id quiz) graded_db = row :: rows' ->
        run 100 (start_route 5 1) graded_db
        = (Status 403 "You have already submitted this quiz", graded_db)
        /\ forall answers,
             truthy answers = true -> is_object answers = true ->
             run 100 (submit_route Json.read 5 1 answers) graded_db
             = (Status 403 "Quiz already submitted", graded_db)).
Proof.
  apply (submitted_attempt_is_terminal Json.read 100 5 1 graded_db
           {| attempt_id := 1; attempt_quiz_id := 1; student_id := 5;
              submitted_at := Some 60; score := 10; percentage := 100%Q;
              answers := JObj [("0", JStr "paris")] |} []);
    reflexivity.
Defined.

(** A second submission with other answers: rejected, the first grade
    kept. *)
Example resubmission_rejected :
  run 100 (submit_route Json.read 5 1 (JObj [("0", JStr "London")]))
      graded_db
  = (Status 403 "Quiz already submitted", graded_db).
Proof. reflexivity. Qed.

Section SubmitFacts.

Variable JSON_parse : string -> option value.
Variable now : Z.

(** C10: a submit for a quiz without questions, by an enrolled student who
    has no attempt yet, is answered with the no-questions error after the
    attempt row has been inserted: the database that remains holds a new,
    unsubmitted attempt for the pair. *)
Theorem submit_without_questions_keeps_new_attempt
  student id answers db quiz quizzes' row rows' :
  truthy answers = true ->
  is_object answers = true ->
  select_quiz id db = quiz :: quizzes' ->
  select_enrollment student (subject_id quiz) db = row :: rows' ->
  select_attempts id student db = [] ->
  select_questions id db = [] ->
  run now (submit_route JSON_parse student id answers) db
  = (Status 400 "No questions found for this quiz",
     snd (insert_attempt id student db))
  /\ select_attempts id student (snd (insert_attempt id student db))
     = [new_attempt (auto_increment db) id student]
  /\ submitted (new_attempt (auto_increment db) id student) = false
  /\ snd (insert_attempt id student db) <> db.
Proof.
  intros Ht Ho Hquiz Henr Hatt Hq.
  destruct (insert_fresh student id db Hatt) as (Hid & Hnew & Hqs).
  repeat split.
  - unfold submit_route. rewrite Ht, Ho. simpl.
    rewrite Hquiz. simpl. rewrite Henr. simpl. rewrite Hatt. simpl.
    destruct (insert_attempt id student db) as [result db'] eqn:Hins.
    simpl in *. subst result. unfold submit_grade. simpl.
    now rewrite Hqs, Hq.
  - exact Hnew.
  - intros Hsame. rewrite Hsame, Hatt in Hnew. discriminate.
Qed.

(** What the three routes share: a student who is not enrolled in the
    subject of the quiz is rejected, and nothing is written. *)
Lemma routes_check_enrollment student id answers db quiz quizzes' :
  select_quiz id db = quiz :: quizzes' ->
  select_enrollment student (subject_id quiz) db = [] ->
  truthy answers = true ->
  is_object answers = true ->
  run now (details_route JSON_parse now student id) db
  = (Status 403 "You are not enrolled in this subject", db)
  /\ run now (start_route student id) db
     = (Status 403 "You are not enrolled in this subject", db)
  /\ run now (submit_route JSON_parse student id answers) db
     = (Status 403 "You are not enrolled in this subject", db).
Proof.
  intros Hquiz Henr Ht Ho.
  unfold details_route, start_route, submit_route. rewrite Ht, Ho. simpl.
  rewrite Hquiz. simpl. now rewrite Henr.
Qed.

(** The details route checks the active flag and the window. *)
Lemma details_checks_activity student id db quiz quizzes' row rows' :
  select_quiz id db = quiz :: quizzes' ->
  select_enrollment student (subject_id quiz) db = row :: rows' ->
  negb (is_active quiz) || not_started quiz now || ended quiz now = true ->
  is_rejected (fst (run now (details_route JSON_parse now student id) db))
  = true
  /\ snd (run now (details_route JSON_parse now student id) db) = db.
Proof.
  intros Hquiz Henr Hclosed. unfold details_route. simpl.
  rewrite Hquiz. simpl. rewrite Henr. simpl.
  destruct (negb (is_active quiz)); [now split|].
  destruct (not_started quiz now); [now split|].
  destruct (ended quiz now); [now split|discriminate].
Qed.

(** The details route on a failed insert: with an attempt in the table the
    insert is refused, the attempt is fetched, and the route goes on as if
    the first query had returned it. *)
Lemma details_attempt_conflict student id db attempt rest
  (k : Attempt -> prog response) :
  select_attempts id student db = attempt :: rest ->
  run now (details_attempt student id [] k) db
  = if submitted attempt
    then (Status 403 "You have already submitted this quiz", db)
    else run now (k attempt) db.
Proof.
  intros Hsel. unfold details_attempt. simpl.
  rewrite (insert_conflict student id db attempt rest Hsel). simpl.
  rewrite Hsel. now destruct (submitted attempt).
Qed.

(** The start route on a failed insert: the error is the answer. *)
Lemma start_create_conflict student id db attempt rest :
  select_attempts id student db = attempt :: rest ->
  run now (start_create student id) db = (Status 500 "Server error", db).
Proof.
  intros Hsel. unfold start_create. simpl.
  now rewrite (insert_conflict student id db attempt rest Hsel).
Qed.

End SubmitFacts.

Lemma submit_without_questions_witness :
  run 100 (submit_route Json.read 5 1 (JObj [("0", JStr "paris")])) empty_db
  = (Status 400 "No questions found for this quiz",
     snd (insert_attempt 1 5 empty_db))
  /\ select_attempts 1 5 (snd (insert_attempt 1 5 empty_db))
     = [new_attempt (auto_increment empty_db) 1 5]
  /\ submitted (new_attempt (auto_increment empty_db) 1 5) = false
  /\ snd (insert_attempt 1 5 empty_db) <> empty_db.
Proof.
  apply (submit_without_questions_keeps_new_attempt Json.read 100 5 1
           (JObj [("0", JStr "paris")]) empty_db open_quiz [] (5, 7) []);
    reflexivity.
Defined.

(** C6: the quiz of [closed_db] is inactive and ended at 50.  At time 100
    the details route refuses it; the start route creates an attempt and
    the submit route grades and stores one, neither looking at the active
    flag or at the window. *)
Theorem start_and_submit_skip_activity_checks :
  is_active closed_quiz = false
  /\ ended closed_quiz 100 = true
  /\ run 100 (details_route Json.read 100 5 1) closed_db
     = (Status 403 "This quiz is not active", closed_db)
  /\ fst (run 100 (start_route 5 1) closed_db) = Json (Started 1)
  /\ select_attempts 1 5 (snd (run 100 (start_route 5 1) closed_db))
     = [new_attempt 1 1 5]
  /\ fst (run 100 (submit_route Json.read 5 1 (JObj [("0", JStr "paris")]))
              closed_db)
     = Json (Submitted 10 (Some 10) (10000 # 100)).
Proof. repeat split. Qed.

(** C9: two start requests of student 5 race for quiz 1.  The one observed
    reads no attempt, the other one then inserts its row, and the insert of
    the first is refused by the unique key: the start route answers with
    the server error.  The details route, in the same schedule, fetches the
    row again and answers with it. *)
Theorem start_surfaces_insert_conflict :
  run_among 100 racing (start_route 5 1) open_db
  = (Status 500 "Server error", other_start open_db)
  /\ select_attempts 1 5 (other_start open_db) = [new_attempt 1 1 5]
  /\ fst (run_among 100 racing (details_route Json.read 100 5 1) open_db)
     = Json (QuizDetails open_quiz (new_attempt 1 1 5)
               (map (questionForStudent Json.read) [capital_decoded; second])).
Proof. repeat split. Qed.

(** * Further properties *)

(** ** The score *)

Section ScoreFacts.

Variable JSON_parse : string -> option value.

Lemma credits_le_marks answers questions index :
  Forall (fun q => 0 <= marks q) questions ->
  credits JSON_parse answers questions index <= marks_total questions.
Proof.
  intros H. revert index. induction H as [|q rest Hq _ IH]; intros index;
    simpl; [lia|].
  specialize (IH (S index)).
  destruct (awarded JSON_parse answers q index); lia.
Qed.

(** X1: with marks that are not negative, the score of a submission lies
    between 0 and the sum of the marks of the questions of the quiz. *)
Theorem score_within_marks (questions : list Question) (answers : value) :
  Forall (fun q => 0 <= marks q) questions ->
  0 <= totalScore JSON_parse questions answers <= marks_total questions.
Proof.
  intros H. rewrite totalScore_credits. split.
  - now apply credits_nonneg.
  - now apply credits_le_marks.
Qed.

End ScoreFacts.

Lemma score_within_marks_witness :
  0 <= totalScore Json.read [capital_decoded; second]
         (JObj [("0", JStr "Paris")])
    <= marks_total [capital_decoded; second].
Proof.
  apply (score_within_marks Json.read [capital_decoded; second]
           (JObj [("0", JStr "Paris")])).
  repeat (apply Forall_cons; [simpl; lia|]). apply Forall_nil.
Defined.

(** ** Integers as texts *)

Lemma digits_of_uint_acc (d : Decimal.uint) (acc : positive) :
  digits 10 (Some (Z.pos acc)) (NilEmpty.string_of_uint d)
  = Some (Z.pos (Pos.of_uint_acc d acc)).
Proof.
  revert acc. induction d; intros acc; [reflexivity| ..];
    eval_digit; rewrite <- IHd; do 2 f_equal; lia.
Qed.

Lemma digits_of_uint_zero (d : Decimal.uint) :
  digits 10 (Some 0) (NilEmpty.string_of_uint d)
  = Some (Z.of_N (Pos.of_uint d)).
Proof.
  induction d; [reflexivity| ..]; eval_digit;
    try exact IHd; apply digits_of_uint_acc.
Qed.

Lemma digits_of_uint (d : Decimal.uint) :
  d <> Decimal.Nil ->
  digits 10 None (NilEmpty.string_of_uint d) = Some (Z.of_N (Pos.of_uint d)).
Proof.
  intros Hd. destruct d; [contradiction| ..]; eval_digit;
    try apply digits_of_uint_zero; apply digits_of_uint_acc.
Qed.

Lemma decimal_text_plain (d : Decimal.uint) :
  trimStart (NilEmpty.string_of_uint d) = NilEmpty.string_of_uint d
  /\ strip_sign (NilEmpty.string_of_uint d)
     = (1, NilEmpty.string_of_uint d)
  /\ strip_hex (NilEmpty.string_of_uint d)
     = (10, NilEmpty.string_of_uint d).
Proof.
  destruct d as [|d|d|d|d|d|d|d|d|d|d]; repeat split;
    destruct d; reflexivity.
Qed.

Lemma parseInt_of_uint (d : Decimal.uint) :
  d <> Decimal.Nil ->
  parseInt (NilEmpty.string_of_uint d) = Some (Z.of_N (Pos.of_uint d))
  /\ parseInt (String "-" (NilEmpty.string_of_uint d))
     = Some (- Z.of_N (Pos.of_uint d)).
Proof.
  intros Hd. pose proof (digits_of_uint d Hd) as H.
  destruct (decimal_text_plain d) as (Ht & Hs & Hx).
  unfold parseInt. split.
  - rewrite Ht, Hs. cbv beta iota. rewrite Hx. cbv beta iota.
    rewrite H. f_equal; try lia.
  - change (trimStart (String "-" (NilEmpty.string_of_uint d)))
      with (String "-" (NilEmpty.string_of_uint d)).
    change (strip_sign (String "-" (NilEmpty.string_of_uint d)))
      with (-1, NilEmpty.string_of_uint d).
    cbv beta iota. rewrite Hx. cbv beta iota. rewrite H. f_equal; try lia.
Qed.

(** [parseInt] reads the decimal text of every integer back. *)
(** Where the correct answer is written in decimal digits, [parseInt]
    reads the integer that the text denotes. *)
Lemma parseInt_decimal_index (text : string) (n : Z) :
  decimal_index text = Some n -> parseInt text = Some n /\ 0 <= n.
Proof.
  unfold decimal_index. intros H.
  destruct text as [|c rest]; [discriminate|].
  destruct (NilEmpty.uint_of_string (String c rest)) as [d|] eqn:Hd;
    [|discriminate].
  simpl in H. injection H as <-.
  apply NilEmpty.sus in Hd.
  assert (Hn : d <> Decimal.Nil) by (intros ->; discriminate).
  destruct (parseInt_of_uint d Hn) as [Hp _]. rewrite Hd in Hp.
  split; [exact Hp|]. unfold N.of_uint. lia.
Qed.

(** Every form that the specification accepts is a form that the routes
    accept; the two agree where the correct answer is written in decimal
    digits, and where [parseInt] reads no number at all. *)
Lemma accepted_forms_agree (nc : string) (os : list string) (ns : string) :
  (accepted_form nc os ns -> accepted_form_parseInt nc os ns)
  /\ ((exists n, decimal_index nc = Some n) \/ parseInt nc = None ->
      accepted_form_parseInt nc os ns -> accepted_form nc os ns).
Proof.
  split.
  - intros [H|(n & text & Hd & Hnth & Heq)]; [now left|].
    destruct (parseInt_decimal_index nc n Hd) as [Hp Hn].
    right. now exists n, text.
  - intros Hnc [H|(n & text & Hp & Hn & Hnth & Heq)]; [now left|].
    destruct Hnc as [[m Hd]|Hnone]; [|congruence].
    destruct (parseInt_decimal_index nc m Hd) as [Hp' _].
    assert (m = n) by congruence. subst m.
    right. now exists n, text.
Qed.

Lemma parseInt_Z_toString (n : Z) : parseInt (Z_toString n) = Some n.
Proof.
  destruct n as [|p|p]; [reflexivity| |]; unfold Z_toString; simpl.
  - pose proof (DecimalPos.Unsigned.to_uint_nonnil p) as Hn.
    destruct (parseInt_of_uint _ Hn) as [H _].
    rewrite DecimalPos.Unsigned.of_to in H.
    unfold NilZero.string_of_uint.
    destruct (Pos.to_uint p); [contradiction| ..]; exact H.
  - pose proof (DecimalPos.Unsigned.to_uint_nonnil p) as Hn.
    destruct (parseInt_of_uint _ Hn) as [_ H].
    rewrite DecimalPos.Unsigned.of_to in H.
    unfold NilZero.string_of_uint.
    destruct (Pos.to_uint p); [contradiction| ..]; exact H.
Qed.

Lemma decimal_text_normal (d : Decimal.uint) :
  toLowerCase (NilEmpty.string_of_uint d) = NilEmpty.string_of_uint d
  /\ trimEnd (NilEmpty.string_of_uint d) = NilEmpty.string_of_uint d.
Proof.
  induction d as [|d [IHl IHt]|d [IHl IHt]|d [IHl IHt]|d [IHl IHt]
                  |d [IHl IHt]|d [IHl IHt]|d [IHl IHt]|d [IHl IHt]
                  |d [IHl IHt]|d [IHl IHt]];
    [split; reflexivity| ..];
    cbn [NilEmpty.string_of_uint toLowerCase trimEnd];
    rewrite IHl, IHt; split; reflexivity.
Qed.

Lemma nat_toString_normal (k : nat) :
  toLowerCase (trim (nat_toString k)) = nat_toString k
  /\ nat_toString k <> EmptyString.
Proof.
  unfold nat_toString, Z_toString, trim.
  destruct (Z.of_nat k) as [|p|p] eqn:Hk; [split; [reflexivity|discriminate]
                                          | |lia].
  cbn [Z.to_int NilZero.string_of_int].
  pose proof (DecimalPos.Unsigned.to_uint_nonnil p) as Hn.
  unfold NilZero.string_of_uint.
  destruct (decimal_text_plain (Pos.to_uint p)) as (Ht & _ & _).
  destruct (decimal_text_normal (Pos.to_uint p)) as (Hl & He).
  destruct (Pos.to_uint p) eqn:Hd; [contradiction| ..];
    rewrite Ht, He, Hl; (split; [reflexivity|discriminate]).
Qed.

(** ** Grading one question *)

Lemma trim_empty : trim EmptyString = EmptyString.
Proof. reflexivity. Qed.

Section QuestionFacts.

Variable JSON_parse : string -> option value.

(** X2: a correct answer stored as the decimal text of a position selects
    the option at that position: for options that read as a list of texts,
    an answer that is not blank and has the normalized text of option [k]
    earns the marks when [correct_answer] is the text of [k]. *)
Theorem index_as_correct_answer answers question index studentAnswer
  (s : string) (os : list string) (k : nat) (text : string) :
  question_type question = "mcq" ->
  truthy (options question) = true ->
  parsedOptions JSON_parse question = Normal (JArr (map JStr os)) ->
  correct_answer question = JStr (nat_toString k) ->
  nth_error os k = Some text ->
  lookupAnswer answers index = Normal studentAnswer ->
  toString studentAnswer = Normal s ->
  trim s <> EmptyString ->
  toLowerCase (trim s) = toLowerCase (trim text) ->
  forall total,
    grade_question JSON_parse answers question index total
    = (Normal tt, total + marks question).
Proof.
  intros Hty Hopt Hparse Hca Hnth Hsa Hs Hblank Heq total.
  rewrite grade_question_awarded.
  destruct (nat_toString_normal k) as [Hnorm Hne].
  assert (Hns : toLowerCase (trim s) <> EmptyString)
    by (intros H; apply Hblank; now apply toLowerCase_empty).
  assert (Htr : truthy studentAnswer = true).
  { destruct (lookupAnswer_truthy_or_empty _ _ _ Hsa) as [H|H]; [exact H|].
    subst studentAnswer. simpl in Hs. injection Hs as <-.
    now contradiction Hblank. }
  assert (Hnc : normalizedCorrect question = Normal (nat_toString k)).
  { unfold normalizedCorrect, normalize. rewrite Hca. simpl.
    destruct (nat_toString k =? EmptyString)%string eqn:He;
      [apply String.eqb_eq in He; contradiction|].
    simpl. now rewrite Hnorm. }
  assert (Hm : option_matches (JArr (map JStr os)) (nat_toString k)
                 (toLowerCase (trim s)) = true).
  { apply option_matches_strings; [exact Hns|].
    exists (Z.of_nat k), text. unfold nat_toString.
    rewrite parseInt_Z_toString, Nat2Z.id. repeat split; auto. lia. }
  unfold awarded. rewrite Hsa, Htr, Hs, Hnc, Hty, Hopt, Hparse, Hm. simpl.
  destruct (trim s =? EmptyString)%string eqn:Hb;
    [apply String.eqb_eq in Hb; contradiction|].
  destruct (nat_toString k =? EmptyString)%string eqn:He;
    [apply String.eqb_eq in He; contradiction|].
  simpl. now rewrite orb_true_r.
Qed.

(** X3: grading does not tell apart two answers with the same normalized
    text: answers that differ only in letter case and in surrounding white
    space get the same marks. *)
Theorem grading_ignores_case_and_padding a1 a2 question index
  (s1 s2 : string) :
  lookupAnswer a1 index = Normal (JStr s1) ->
  lookupAnswer a2 index = Normal (JStr s2) ->
  toLowerCase (trim s1) = toLowerCase (trim s2) ->
  forall total,
    grade_question JSON_parse a1 question index total
    = grade_question JSON_parse a2 question index total.
Proof.
  intros H1 H2 Heq total. rewrite !grade_question_awarded.
  do 2 f_equal. f_equal. unfold awarded. rewrite H1, H2. simpl.
  rewrite Heq.
  assert (Hb : (trim s1 =? EmptyString)%string
               = (trim s2 =? EmptyString)%string).
  { destruct (trim s1 =? EmptyString)%string eqn:B1;
      destruct (trim s2 =? EmptyString)%string eqn:B2; try reflexivity.
    - apply String.eqb_eq in B1. apply String.eqb_neq in B2.
      exfalso. apply B2. apply toLowerCase_empty.
      now rewrite <- Heq, B1.
    - apply String.eqb_eq in B2. apply String.eqb_neq in B1.
      exfalso. apply B1. apply toLowerCase_empty.
      now rewrite Heq, B2. }
  rewrite Hb.
  destruct (normalizedCorrect question) as [nc| |e];
    [|now rewrite !andb_false_r..].
  destruct (trim s2 =? EmptyString)%string eqn:B2; simpl;
    [now rewrite !andb_false_r|].
  assert (N1 : (s1 =? EmptyString)%string = false).
  { apply String.eqb_neq. intros ->. rewrite trim_empty in Hb.
    discriminate. }
  assert (N2 : (s2 =? EmptyString)%string = false).
  { apply String.eqb_neq. intros ->. rewrite trim_empty in B2.
    discriminate. }
  now rewrite N1, N2.
Qed.

(** X4: a question that is not multiple choice, or has no options, is
    graded by the texts alone: the marks are added exactly when the answer
    is not blank and its normalized text is the normalized correct
    answer. *)
Theorem plain_question_exact_match answers question index studentAnswer
  (s nc : string) :
  question_type question <> "mcq" \/ truthy (options question) = false ->
  normalizedCorrect question = Normal nc ->
  lookupAnswer answers index = Normal studentAnswer ->
  toString studentAnswer = Normal s ->
  (awarded JSON_parse answers question index = true
   <-> trim s <> EmptyString /\ toLowerCase (trim s) = nc)
  /\ forall total,
       grade_question JSON_parse answers question index total
       = (Normal tt,
          total + if awarded JSON_parse answers question index
                  then marks question else 0).
Proof.
  intros Hplain Hnc Hsa Hs.
  split; [|intros total; apply grade_question_awarded].
  assert (Hguard : (question_type question =? "mcq")%string
                   && truthy (options question) = false).
  { destruct Hplain as [H|H].
    - apply String.eqb_neq in H. now rewrite H.
    - rewrite H. apply andb_false_r. }
  unfold awarded. rewrite Hsa, Hs, Hnc, Hguard.
  destruct (trim s =? EmptyString)%string eqn:Hb; simpl.
  - apply String.eqb_eq in Hb. rewrite andb_false_r. split; [discriminate|].
    intros [H _]. contradiction.
  - apply String.eqb_neq in Hb.
    assert (Htr : truthy studentAnswer = true).
    { destruct (lookupAnswer_truthy_or_empty _ _ _ Hsa) as [H|H];
        [exact H|].
      subst studentAnswer. simpl in Hs. injection Hs as <-.
      now contradiction Hb. }
    rewrite Htr. simpl.
    destruct (nc =? EmptyString)%string eqn:Hne; simpl.
    + apply String.eqb_eq in Hne. subst nc. split; [discriminate|].
      intros [_ H]. exfalso. apply Hb. now apply toLowerCase_empty.
    + rewrite String.eqb_eq. split; [now split|now intros [_ H]].
Qed.

End QuestionFacts.

(** ** Answers given as an array *)

Lemma array_index_named (k : string) :
  array_index ("question-" ++ k) = None.
Proof.
  unfold array_index. cbn [append NilZero.uint_of_string].
  cbn [NilEmpty.uint_of_string].
  now destruct (NilEmpty.uint_of_string _).
Qed.

Lemma lookupAnswer_array (elems : list value) (index : nat) :
  lookupAnswer (JArr elems) index
  = Normal (first_of truthy [of_option (nth_error elems index)]).
Proof.
  rewrite lookupAnswer_is_first_truthy.
  unfold lookup_first_truthy, candidates.
  change (get (JArr elems) (nat_toString index))
    with (get_num (JArr elems) (Z.of_nat index)).
  rewrite get_num_array.
  destruct (Z.leb_spec 0 (Z.of_nat index)) as [_|H]; [|lia].
  rewrite Nat2Z.id. cbn [cbind get]. rewrite array_index_named.
  cbn [cbind]. unfold first_of. simpl.
  destruct (truthy (of_option (nth_error elems index))); reflexivity.
Qed.

Section ArrayFacts.

Variable JSON_parse : string -> option value.

Lemma credits_app answers (l1 l2 : list Question) (index : nat) :
  credits JSON_parse answers (l1 ++ l2) index
  = credits JSON_parse answers l1 index
    + credits JSON_parse answers l2 (index + List.length l1).
Proof.
  revert index. induction l1 as [|q l1 IH]; intros index; simpl.
  - now rewrite Nat.add_0_r.
  - rewrite IH. replace (S index + List.length l1)%nat
      with (index + S (List.length l1))%nat by lia. ring.
Qed.

Lemma credits_past_array (elems : list value) questions (index : nat) :
  (List.length elems <= index)%nat ->
  credits JSON_parse (JArr elems) questions index = 0.
Proof.
  revert index. induction questions as [|q rest IH]; intros index H;
    simpl; [reflexivity|].
  rewrite IH by lia. unfold awarded. rewrite lookupAnswer_array.
  replace (nth_error elems index) with (@None value)
    by (symmetry; now apply nth_error_None).
  reflexivity.
Qed.

(** X5: when the answers are an array, the questions past the end of the
    array earn nothing: the score is the score of the first questions, as
    many as the array has entries. *)
Theorem score_of_short_array (elems : list value)
  (questions : list Question) :
  totalScore JSON_parse questions (JArr elems)
  = totalScore JSON_parse (firstn (List.length elems) questions)
      (JArr elems).
Proof.
  destruct (Nat.le_gt_cases (List.length questions) (List.length elems))
    as [Hshort|Hlong].
  - now rewrite firstn_all2.
  - rewrite !totalScore_credits.
    rewrite <- (firstn_skipn (List.length elems) questions) at 1.
    rewrite credits_app.
    rewrite (credits_past_array elems
               (skipn (List.length elems) questions)).
    + apply Z.add_0_r.
    + rewrite length_firstn. lia.
Qed.

End ArrayFacts.

(** ** The question analysis *)

Lemma accuracy_range (count total : Z) :
  0 <= count ->
  (0 <= accuracy_percentage count total)%Q
  /\ (accuracy_percentage count total <= 100)%Q.
Proof.
  intros Hc. unfold accuracy_percentage.
  destruct (Z.ltb_spec 0 total) as [Ht|Ht]; [|split; lra].
  destruct (Math_min_range _ (ratio_nonneg count total Hc Ht)) as [H0 H100].
  now apply toFixed2_range.
Qed.

Section AnalysisFacts.

Variable JSON_parse : string -> option value.

Lemma tallies_range question index attempts :
  0 <= tallies JSON_parse question index attempts
  <= Z.of_nat (List.length attempts).
Proof.
  induction attempts as [|a rest IH]; simpl List.length; simpl tallies;
    [lia|].
  destruct (counted JSON_parse question index a); lia.
Qed.

Lemma correctCount_tallies question index attempts :
  correctCount JSON_parse question index attempts
  = tallies JSON_parse question index attempts.
Proof. unfold correctCount, analyze_run. now rewrite forEach_analyze. Qed.

Lemma mapi_length {A B} (f : A -> nat -> B) (xs : list A) (index : nat) :
  List.length (mapi f xs index) = List.length xs.
Proof.
  revert index. induction xs as [|x xs IH]; intros index; simpl;
    [reflexivity|]. now rewrite IH.
Qed.

Lemma mapi_Forall {A B} (P : B -> Prop) (f : A -> nat -> B) (xs : list A)
  (index : nat) :
  (forall x i, P (f x i)) -> Forall P (mapi f xs index).
Proof.
  intros H. revert index. induction xs as [|x xs IH]; intros index; simpl;
    constructor; auto.
Qed.

(** X6: the analysis has one entry for each question; in each entry the
    number of attempts is the number of submitted attempts given, the
    number of correct answers lies between 0 and that number, and the
    accuracy lies between 0 and 100. *)
Theorem questionAnalysis_bounds (questions : list Question)
  (attempts : list value) :
  List.length (questionAnalysis JSON_parse questions attempts)
  = List.length questions
  /\ Forall (fun entry =>
               total_attempts entry = Z.of_nat (List.length attempts)
               /\ 0 <= correct_answers entry <= total_attempts entry
               /\ (0 <= accuracy entry)%Q /\ (accuracy entry <= 100)%Q)
            (questionAnalysis JSON_parse questions attempts).
Proof.
  unfold questionAnalysis. split; [apply mapi_length|].
  apply mapi_Forall. intros question index. cbn [total_attempts
    correct_answers accuracy].
  rewrite correctCount_tallies.
  pose proof (tallies_range question index attempts) as Ht.
  split; [reflexivity|]. split; [exact Ht|].
  apply accuracy_range. lia.
Qed.

(** X7: an attempt whose stored answers are a text that does not parse is
    skipped: it is counted correct for no question, while it still counts
    in the number of attempts. *)
Theorem unparseable_attempt_is_skipped (question : Question) (index : nat)
  (text : string) (attempts : list value) :
  text <> EmptyString ->
  JSON_parse text = None ->
  correctCount JSON_parse question index (JStr text :: attempts)
  = correctCount JSON_parse question index attempts.
Proof.
  intros Htext Hparse. rewrite !correctCount_tallies. simpl.
  unfold counted, attemptAnswers, try_catch, lift, bind, console_log,
    return_, ret, parse. simpl.
  destruct text; [contradiction|]. simpl. now rewrite Hparse.
Qed.

End AnalysisFacts.

Lemma unparseable_attempt_witness :
  correctCount Json.read capital 0%nat
    (JStr "{0: paris" :: [JObj [("0", JStr "paris")]])
  = correctCount Json.read capital 0%nat [JObj [("0", JStr "paris")]].
Proof.
  apply (unparseable_attempt_is_skipped Json.read capital 0%nat
           "{0: paris" [JObj [("0", JStr "paris")]]).
  - discriminate.
  - reflexivity.
Defined.

(** ** The student routes, one request at a time *)

Lemma insert_keeps_tables student id db :
  quizzes (snd (insert_attempt id student db)) = quizzes db
  /\ student_subjects (snd (insert_attempt id student db))
     = student_subjects db
  /\ questions (snd (insert_attempt id student db)) = questions db.
Proof.
  unfold insert_attempt.
  destruct (existsb (for_pair id student) (quiz_attempts db)); now simpl.
Qed.

Lemma update_keeps_tables now id ans sc pct db :
  quizzes (update_attempt now id ans sc pct db) = quizzes db
  /\ student_subjects (update_attempt now id ans sc pct db)
     = student_subjects db
  /\ questions (update_attempt now id ans sc pct db) = questions db.
Proof. now unfold update_attempt. Qed.

Lemma exec_keeps_tables now {X} (q : query X) db :
  quizzes (snd (exec now q db)) = quizzes db
  /\ student_subjects (snd (exec now q db)) = student_subjects db
  /\ questions (snd (exec now q db)) = questions db.
Proof.
  destruct q; simpl; try (repeat split; reflexivity).
  apply insert_keeps_tables.
Qed.

Lemma run_keeps_tables (now : Z) {A} (p : prog A) (db : DB) :
  quizzes (snd (run now p db)) = quizzes db
  /\ student_subjects (snd (run now p db)) = student_subjects db
  /\ questions (snd (run now p db)) = questions db.
Proof.
  revert db. induction p as [a|X q k IH]; intros db; simpl;
    [repeat split; reflexivity|].
  destruct (exec now q db) as [x db'] eqn:He.
  destruct (IH x db') as (H1 & H2 & H3).
  destruct (exec_keeps_tables now q db) as (E1 & E2 & E3).
  rewrite He in E1, E2, E3. simpl in E1, E2, E3.
  rewrite H1, H2, H3. now repeat split.
Qed.

Section RoutesAlone.

Variable JSON_parse : string -> option value.
Variable now : Z.

Lemma insert_succeeds student id db :
  select_attempts id student db = [] ->
  insert_attempt id student db
  = (inr (auto_increment db), snd (insert_attempt id student db)).
Proof.
  intros H. unfold insert_attempt, select_attempts in *.
  now rewrite (filter_nil_existsb _ _ H).
Qed.

Lemma select_after_insert student id db :
  select_quiz id (snd (insert_attempt id student db)) = select_quiz id db
  /\ (forall subject,
        select_enrollment student subject (snd (insert_attempt id student db))
        = select_enrollment student subject db)
  /\ select_questions id (snd (insert_attempt id student db))
     = select_questions id db.
Proof.
  destruct (insert_keeps_tables student id db) as (H1 & H2 & H3).
  unfold select_quiz, select_enrollment, select_questions.
  now rewrite H1, H2, H3.
Qed.

End RoutesAlone.

Lemma filter_map_commute {A} (f : A -> bool) (g : A -> A) (l : list A) :
  (forall x, f (g x) = f x) ->
  filter f (map g l) = map g (filter f l).
Proof.
  intros H. induction l as [|x l IH]; simpl; [reflexivity|].
  rewrite H. destruct (f x); simpl; now rewrite IH.
Qed.

Lemma select_after_update now quiz student aid ans sc pct db a rest :
  select_attempts quiz student db = a :: rest ->
  attempt_id a = aid ->
  exists rest',
    select_attempts quiz student (update_attempt now aid ans sc pct db)
    = {| attempt_id := attempt_id a;
         attempt_quiz_id := attempt_quiz_id a;
         student_id := student_id a;
         submitted_at := Some now;
         score := sc; percentage := pct; answers := ans |} :: rest'.
Proof.
  intros Hsel Hid. unfold select_attempts, update_attempt in *. simpl.
  rewrite filter_map_commute.
  - rewrite Hsel. simpl. rewrite Hid, Z.eqb_refl. eauto.
  - intros x. destruct (attempt_id x =? aid); reflexivity.
Qed.

Lemma select_tables_after_update now aid ans sc pct db id student :
  select_quiz id (update_attempt now aid ans sc pct db) = select_quiz id db
  /\ (forall subject,
        select_enrollment student subject
          (update_attempt now aid ans sc pct db)
        = select_enrollment student subject db).
Proof. now unfold select_quiz, select_enrollment, update_attempt. Qed.

Section Lifecycle.

Variable JSON_parse : string -> option value.
Variable now : Z.

(** What a stored attempt with a submission time does to the two routes. *)
Lemma locked_routes student id db quiz quizzes' row rows' stored rest :
  select_quiz id db = quiz :: quizzes' ->
  select_enrollment student (subject_id quiz) db = row :: rows' ->
  select_attempts id student db = stored :: rest ->
  submitted stored = true ->
  run now (start_route student id) db
  = (Status 403 "You have already submitted this quiz", db)
  /\ forall answers,
       truthy answers = true -> is_object answers = true ->
       run now (submit_route JSON_parse student id answers) db
       = (Status 403 "Quiz already submitted", db).
Proof.
  intros Hquiz Henr Hsel Hsub. split.
  - unfold start_route. simpl. rewrite Hquiz. simpl. rewrite Henr. simpl.
    now rewrite Hsel, Hsub.
  - intros answers Ht Ho. unfold submit_route. rewrite Ht, Ho. simpl.
    rewrite Hquiz. simpl. rewrite Henr. simpl. now rewrite Hsel, Hsub.
Qed.

Lemma submit_grade_stores id quiz answers attemptId db q qs :
  select_questions id db = q :: qs ->
  run now (submit_grade JSON_parse id quiz answers attemptId) db
  = (Json (Submitted (totalScore JSON_parse (q :: qs) answers)
             (total_marks quiz)
             (percentageOf quiz (totalScore JSON_parse (q :: qs) answers))),
     update_attempt now attemptId answers
       (totalScore JSON_parse (q :: qs) answers)
       (percentageOf quiz (totalScore JSON_parse (q :: qs) answers)) db).
Proof.
  intros Hq. unfold submit_grade. simpl. rewrite Hq.
  unfold totalScore, grade_run. rewrite forEach_grade. reflexivity.
Qed.

(** The outcome of a submit that reaches the grading. *)
Lemma submit_outcome student id sent db quiz quizzes' row rows' q qs :
  truthy sent = true ->
  is_object sent = true ->
  select_quiz id db = quiz :: quizzes' ->
  select_enrollment student (subject_id quiz) db = row :: rows' ->
  open_for id student db = true ->
  select_questions id db = q :: qs ->
  let sc := totalScore JSON_parse (q :: qs) sent in
  let pct := percentageOf quiz sc in
  exists aid db1 a rest,
    run now (submit_route JSON_parse student id sent) db
    = (Json (Submitted sc (total_marks quiz) pct),
       update_attempt now aid sent sc pct db1)
    /\ select_attempts id student db1 = a :: rest
    /\ attempt_id a = aid
    /\ select_quiz id db1 = quiz :: quizzes'
    /\ select_enrollment student (subject_id quiz) db1 = row :: rows'.
Proof.
  intros Ht Ho Hquiz Henr Hopen Hq sc pct.
  unfold submit_route. rewrite Ht, Ho. simpl. rewrite Hquiz. simpl.
  rewrite Henr. simpl. unfold open_for in Hopen.
  destruct (select_attempts id student db) as [|a rest] eqn:Ha.
  - simpl. rewrite (insert_succeeds student id db Ha).
    destruct (insert_fresh student id db Ha) as (_ & Hnew & Hqs).
    destruct (select_after_insert student id db) as (S1 & S2 & _).
    rewrite (submit_grade_stores _ _ _ _ _ q qs) by (now rewrite Hqs).
    exists (auto_increment db), (snd (insert_attempt id student db)),
      (new_attempt (auto_increment db) id student), [].
    repeat split; auto; [now rewrite S1|now rewrite S2].
  - apply negb_true_iff in Hopen. rewrite Hopen.
    rewrite (submit_grade_stores _ _ _ _ _ q qs Hq).
    exists (attempt_id a), db, a, rest. repeat split; auto.
Qed.

(** X10: a submit by an enrolled student whose attempt is absent or not yet
    submitted, for a quiz with questions, answers with the score and the
    percentage of the grading and stores them with the answers as they were
    sent and the time of the request; from then on a start and a submit of
    that student for that quiz are rejected as already submitted and write
    nothing. *)
Theorem submit_stores_and_locks student id sent db quiz quizzes'
  row rows' q qs :
  truthy sent = true ->
  is_object sent = true ->
  select_quiz id db = quiz :: quizzes' ->
  select_enrollment student (subject_id quiz) db = row :: rows' ->
  open_for id student db = true ->
  select_questions id db = q :: qs ->
  let sc := totalScore JSON_parse (q :: qs) sent in
  let pct := percentageOf quiz sc in
  let db' := snd (run now (submit_route JSON_parse student id sent) db) in
  fst (run now (submit_route JSON_parse student id sent) db)
  = Json (Submitted sc (total_marks quiz) pct)
  /\ (exists stored rest,
        select_attempts id student db' = stored :: rest
        /\ submitted_at stored = Some now
        /\ score stored = sc
        /\ percentage stored = pct
        /\ answers stored = sent)
  /\ run now (start_route student id) db'
     = (Status 403 "You have already submitted this quiz", db')
  /\ (forall sent',
        truthy sent' = true -> is_object sent' = true ->
        run now (submit_route JSON_parse student id sent') db'
        = (Status 403 "Quiz already submitted", db')).
Proof.
  intros Ht Ho Hquiz Henr Hopen Hq sc pct db'.
  destruct (submit_outcome student id sent db quiz quizzes' row rows' q qs
              Ht Ho Hquiz Henr Hopen Hq)
    as (aid & db1 & a & rest & Hrun & Hsel & Hid & Hsq & Hse).
  fold sc in Hrun. fold pct in Hrun.
  assert (Hdb' : db' = update_attempt now aid sent sc pct db1)
    by (unfold db'; now rewrite Hrun).
  destruct (select_after_update now id student aid sent sc pct db1 a rest
              Hsel Hid) as [rest' Hstored].
  destruct (select_tables_after_update now aid sent sc pct db1 id student)
    as [U1 U2].
  split; [now rewrite Hrun|]. split.
  - rewrite Hdb'. eexists _, rest'. split; [exact Hstored|].
    now repeat split.
  - rewrite Hdb'.
    eapply (locked_routes student id _ quiz quizzes' row rows').
    + now rewrite U1, Hsq.
    + now rewrite U2, Hse.
    + exact Hstored.
    + reflexivity.
Qed.

End Lifecycle.

Section Entry.

Variable JSON_parse : string -> option value.
Variable now : Z.

(** X11: for an enrolled student without attempt, the first start inserts
    one attempt and answers with its id; a second start answers with that
    same attempt and writes nothing.  For a quiz that is active, within
    its window and has questions, the details route from the same state
    leaves the same database as the start, and asked again it answers with
    the stored attempt and writes nothing. *)
Theorem first_entry_then_resume student id db quiz quizzes' row rows' :
  select_quiz id db = quiz :: quizzes' ->
  select_enrollment student (subject_id quiz) db = row :: rows' ->
  select_attempts id student db = [] ->
  let db1 := snd (insert_attempt id student db) in
  let created := new_attempt (auto_increment db) id student in
  run now (start_route student id) db
  = (Json (Started (auto_increment db)), db1)
  /\ run now (start_route student id) db1 = (Json (Resuming created), db1)
  /\ (forall q qs,
        is_active quiz = true ->
        not_started quiz now = false ->
        ended quiz now = false ->
        select_questions id db = q :: qs ->
        snd (run now (details_route JSON_parse now student id) db) = db1
        /\ run now (details_route JSON_parse now student id) db1
           = (Json (QuizDetails quiz created
                      (map (questionForStudent JSON_parse) (q :: qs))),
              db1)).
Proof.
  intros Hquiz Henr Hatt db1 created.
  destruct (insert_fresh student id db Hatt) as (_ & Hnew & Hqs).
  destruct (select_after_insert student id db) as (S1 & S2 & _).
  fold db1 in Hnew, Hqs, S1, S2. fold created in Hnew.
  split; [|split].
  - unfold start_route, start_create. simpl. rewrite Hquiz. simpl.
    rewrite Henr. simpl. rewrite Hatt. simpl.
    now rewrite (insert_succeeds student id db Hatt).
  - unfold start_route. simpl. rewrite S1, Hquiz. simpl.
    rewrite S2, Henr. simpl. now rewrite Hnew.
  - intros q qs Hact Hns Hend Hq. split.
    + unfold details_route, details_attempt, details_questions. simpl.
      rewrite Hquiz. simpl. rewrite Henr. simpl.
      rewrite Hact, Hns, Hend. simpl. rewrite Hatt. simpl.
      rewrite (insert_succeeds student id db Hatt). simpl.
      fold db1. rewrite Hqs, Hq. reflexivity.
    + unfold details_route, details_attempt, details_questions. simpl.
      rewrite S1, Hquiz. simpl. rewrite S2, Henr. simpl.
      rewrite Hact, Hns, Hend. simpl. rewrite Hnew. simpl.
      now rewrite Hqs, Hq.
Qed.

End Entry.

Section Details.

Variable JSON_parse : string -> option value.
Variable now : Z.

(** X12: the details route too inserts the attempt before it looks for
    the questions: for an open quiz without questions and an enrolled
    student without attempt it answers with the no-questions error and
    leaves a new, unsubmitted attempt behind. *)
Theorem details_without_questions_keeps_new_attempt
  student id db quiz quizzes' row rows' :
  select_quiz id db = quiz :: quizzes' ->
  select_enrollment student (subject_id quiz) db = row :: rows' ->
  is_active quiz = true ->
  not_started quiz now = false ->
  ended quiz now = false ->
  select_attempts id student db = [] ->
  select_questions id db = [] ->
  run now (details_route JSON_parse now student id) db
  = (Status 400 "No questions found for this quiz",
     snd (insert_attempt id student db))
  /\ select_attempts id student (snd (insert_attempt id student db))
     = [new_attempt (auto_increment db) id student]
  /\ snd (insert_attempt id student db) <> db.
Proof.
  intros Hquiz Henr Hact Hns Hend Hatt Hq.
  destruct (insert_fresh student id db Hatt) as (_ & Hnew & Hqs).
  split; [|split].
  - unfold details_route, details_attempt, details_questions. simpl.
    rewrite Hquiz. simpl. rewrite Henr. simpl.
    rewrite Hact, Hns, Hend. simpl. rewrite Hatt. simpl.
    rewrite (insert_succeeds student id db Hatt). simpl.
    now rewrite Hqs, Hq.
  - exact Hnew.
  - intros Hsame. rewrite Hsame, Hatt in Hnew. discriminate.
Qed.

Lemma questionForStudent_strips (stored : list Question) :
  Forall (fun q => correct_answer q = JUndefined)
         (map (questionForStudent JSON_parse) stored)
  /\ map question_id (map (questionForStudent JSON_parse) stored)
     = map question_id stored
  /\ map marks (map (questionForStudent JSON_parse) stored)
     = map marks stored
  /\ map question_type (map (questionForStudent JSON_parse) stored)
     = map question_type stored.
Proof.
  induction stored as [|q rest (IH1 & IH2 & IH3 & IH4)]; simpl.
  - repeat split; constructor.
  - rewrite IH2, IH3, IH4. repeat split. now constructor.
Qed.

(** X13: whenever the details route answers with the quiz, the questions
    it sends are the questions of the quiz in their stored order, with the
    same ids, types and marks, and none of them carries a correct
    answer. *)
Theorem details_never_sends_correct_answers student id db quiz attempt
  (sent : list Question) :
  fst (run now (details_route JSON_parse now student id) db)
  = Json (QuizDetails quiz attempt sent) ->
  Forall (fun q => correct_answer q = JUndefined) sent
  /\ map question_id sent = map question_id (select_questions id db)
  /\ map marks sent = map marks (select_questions id db)
  /\ map question_type sent = map question_type (select_questions id db).
Proof.
  unfold details_route, details_attempt, details_questions. simpl.
  destruct (select_quiz id db) as [|quiz0 quizzes']; [discriminate|].
  simpl.
  destruct (select_enrollment student (subject_id quiz0) db);
    [discriminate|].
  simpl. destruct (negb (is_active quiz0)); [discriminate|].
  destruct (not_started quiz0 now); [discriminate|].
  destruct (ended quiz0 now); [discriminate|].
  simpl. destruct (select_attempts id student db) as [|a rest] eqn:Ha.
  - simpl. rewrite (insert_succeeds student id db Ha). simpl.
    destruct (select_after_insert student id db) as (_ & _ & Hqs).
    rewrite Hqs.
    destruct (select_questions id db) as [|q qs]; [discriminate|].
    simpl. intros [= _ _ <-]. apply (questionForStudent_strips (q :: qs)).
  - destruct (submitted a); [discriminate|]. simpl.
    destruct (select_questions id db) as [|q qs]; [discriminate|].
    simpl. intros [= _ _ <-]. apply (questionForStudent_strips (q :: qs)).
Qed.

End Details.

(** ** The list of available quizzes and the scores *)

Lemma insert_desc_In {A} (key : A -> option Z) (x y : A) (l : list A) :
  In x (insert_desc key y l) <-> x = y \/ In x l.
Proof.
  induction l as [|z l IH]; simpl.
  - intuition.
  - destruct (key_ge (key y) (key z)); simpl; [intuition|].
    rewrite IH. intuition.
Qed.

Lemma order_desc_In {A} (key : A -> option Z) (x : A) (l : list A) :
  In x (order_desc key l) <-> In x l.
Proof.
  unfold order_desc. induction l as [|y l IH]; simpl; [reflexivity|].
  rewrite insert_desc_In, IH. intuition.
Qed.

Lemma available_checks (subject t : Z) (q : Quiz) :
  available subject t q = true
  <-> subject_id q = subject /\ is_active q = true
      /\ not_started q t = false /\ ended q t = false.
Proof.
  unfold available, not_started, ended.
  rewrite !andb_true_iff, Z.eqb_eq.
  destruct (start_date q) as [s|]; destruct (end_date q) as [e|];
    rewrite ?Z.leb_le, ?Z.ltb_ge; intuition.
Qed.

Lemma left_join_rows student db q r :
  In r (left_join_attempts student db q) ->
  listed_quiz r = q
  /\ attempted r && in_progress r = false
  /\ (attempted r || in_progress r = true ->
      exists a, In a (select_attempts (quiz_id q) student db)
                /\ attempted r = submitted a
                /\ in_progress r = negb (submitted a)
                /\ my_score r = Some (score a)
                /\ my_percentage r = Some (percentage a)).
Proof.
  unfold left_join_attempts.
  destruct (select_attempts (quiz_id q) student db) as [|a0 rest] eqn:Hsel.
  - intros [<-|[]]. simpl. repeat split. discriminate.
  - rewrite in_map_iff. intros (a & <- & Ha). simpl.
    split; [reflexivity|]. split; [now destruct (submitted a)|].
    intros _. exists a. now repeat split.
Qed.

Lemma left_join_nonempty student db q :
  exists r, In r (left_join_attempts student db q) /\ listed_quiz r = q.
Proof.
  unfold left_join_attempts.
  destruct (select_attempts (quiz_id q) student db) as [|a0 rest].
  - eexists. split; [now left|reflexivity].
  - eexists. split; [now left|reflexivity].
Qed.

(** X14: for an enrolled student the list of available quizzes shows
    exactly the quizzes of the subject that pass the checks of the details
    route at the time given (active, started, not ended); no row is marked
    both attempted and in progress, and a row marked either way carries the
    score and the state of an attempt of that student for that quiz. *)
Theorem available_quizzes_listed (t student subject : Z) (db : DB) :
  select_enrollment student subject db <> [] ->
  exists rows,
    available_route t student subject db = Sent rows
    /\ (forall q,
          In q (map listed_quiz rows)
          <-> In q (quizzes db) /\ subject_id q = subject
              /\ is_active q = true
              /\ not_started q t = false /\ ended q t = false)
    /\ Forall
         (fun r =>
            attempted r && in_progress r = false
            /\ (attempted r || in_progress r = true ->
                exists a,
                  In a (select_attempts (quiz_id (listed_quiz r)) student db)
                  /\ attempted r = submitted a
                  /\ in_progress r = negb (submitted a)
                  /\ my_score r = Some (score a)
                  /\ my_percentage r = Some (percentage a)))
         rows.
Proof.
  intros Henr. unfold available_route.
  destruct (select_enrollment student subject db) as [|row rows'];
    [contradiction|].
  eexists. split; [reflexivity|]. split.
  - intros q. rewrite in_map_iff. split.
    + intros (r & <- & Hr). apply order_desc_In in Hr.
      apply in_flat_map in Hr as (q' & Hq' & Hr).
      apply filter_In in Hq' as [Hin Hav].
      destruct (left_join_rows _ _ _ _ Hr) as (-> & _).
      split; [exact Hin|]. now apply available_checks.
    + intros (Hin & Hchecks).
      destruct (left_join_nonempty student db q) as (r & Hr & Hq).
      exists r. split; [exact Hq|]. apply order_desc_In.
      apply in_flat_map. exists q. split; [|exact Hr].
      apply filter_In. split; [exact Hin|]. now apply available_checks.
  - apply Forall_forall. intros r Hr. apply order_desc_In in Hr.
    apply in_flat_map in Hr as (q' & _ & Hr).
    destruct (left_join_rows _ _ _ _ Hr) as (Hq & Hex & Hrow).
    rewrite Hq. now split.
Qed.

(** An unenrolled student gets no list. *)
Lemma available_requires_enrollment (t student subject : Z) (db : DB) :
  select_enrollment student subject db = [] ->
  available_route t student subject db
  = Refused 403 "You are not enrolled in this subject".
Proof. intros H. unfold available_route. now rewrite H. Qed.

(** X15: the scores of a student are exactly the submitted attempts of
    that student, each with the quiz it belongs to: an attempt in progress
    and an attempt of another student never appear. *)
Theorem scores_are_submitted_attempts (student : Z) (db : DB)
  (r : ScoreRow) :
  In r (scores_route student db)
  <-> exists a,
        In a (quiz_attempts db)
        /\ student_id a = student
        /\ submitted_at a = Some (scored_at r)
        /\ In (scored_quiz r) (select_quiz (attempt_quiz_id a) db)
        /\ scored_score r = score a
        /\ scored_percentage r = percentage a.
Proof.
  unfold scores_route. rewrite order_desc_In, in_flat_map. split.
  - intros (a & Ha & Hr). exists a. split; [exact Ha|].
    destruct (submitted_at a) as [t|]; [|contradiction].
    destruct (Z.eqb_spec (student_id a) student) as [Hs|Hs];
      [|contradiction].
    apply in_map_iff in Hr as (q & <- & Hq). now repeat split.
  - intros (a & Ha & Hs & Ht & Hq & Hsc & Hp). exists a.
    split; [exact Ha|]. rewrite Ht, Hs, Z.eqb_refl.
    apply in_map_iff. exists (scored_quiz r). split; [|exact Hq].
    destruct r. simpl in *. now subst.
Qed.

Section ScoresAfterSubmit.

Variable JSON_parse : string -> option value.
Variable now : Z.

(** X16: after such a submit the scores of the student list the quiz with
    the score and the percentage that the submit answered, at the time of
    the request. *)
Theorem submitted_score_is_listed student id sent db quiz quizzes'
  row rows' q qs :
  truthy sent = true ->
  is_object sent = true ->
  select_quiz id db = quiz :: quizzes' ->
  select_enrollment student (subject_id quiz) db = row :: rows' ->
  open_for id student db = true ->
  select_questions id db = q :: qs ->
  let sc := totalScore JSON_parse (q :: qs) sent in
  let db' := snd (run now (submit_route JSON_parse student id sent) db) in
  In {| scored_quiz := quiz; scored_score := sc;
        scored_percentage := percentageOf quiz sc; scored_at := now |}
     (scores_route student db').
Proof.
  intros Ht Ho Hquiz Henr Hopen Hq sc db'.
  destruct (submit_outcome JSON_parse now student id sent db quiz quizzes' row rows' q qs
              Ht Ho Hquiz Henr Hopen Hq)
    as (aid & db1 & a & rest & Hrun & Hsel & Hid & Hsq & Hse).
  fold sc in Hrun.
  assert (Hdb' : db' = update_attempt now aid sent sc
                         (percentageOf quiz sc) db1)
    by (unfold db'; now rewrite Hrun).
  destruct (select_after_update now id student aid sent sc
              (percentageOf quiz sc) db1 a rest Hsel Hid)
    as [rest' Hstored].
  destruct (select_tables_after_update now aid sent sc
              (percentageOf quiz sc) db1 id student) as [U1 _].
  rewrite <- Hdb' in Hstored, U1.
  assert (Hin : In {| attempt_id := attempt_id a;
                      attempt_quiz_id := attempt_quiz_id a;
                      student_id := student_id a;
                      submitted_at := Some now; score := sc;
                      percentage := percentageOf quiz sc;
                      answers := sent |}
                   (select_attempts id student db'))
    by (rewrite Hstored; now left).
  unfold select_attempts in Hin. apply filter_In in Hin as [Hin Hpair].
  unfold for_pair in Hpair. simpl in Hpair.
  apply andb_true_iff in Hpair as [Hqid Hsid].
  apply Z.eqb_eq in Hqid.
  unfold scores_route. apply order_desc_In. apply in_flat_map.
  eexists. split; [exact Hin|]. simpl. rewrite Hsid, Hqid, U1, Hsq.
  now left.
Qed.

End ScoresAfterSubmit.

(** ** The question import *)

Module ImportFacts.

Import ImportQuestions.

Lemma map_rows_Forall {A} (P : question -> Prop)
  (f : A -> Z -> completion question) (xs : list A) (start : Z)
  (qs : list question) :
  (forall x i q, start <= i -> f x i = Normal q -> P q) ->
  map_rows f xs start = Normal qs ->
  Forall P qs.
Proof.
  intros Hf. revert start qs Hf.
  induction xs as [|x xs IH]; intros start qs Hf; simpl.
  - intros [= <-]. constructor.
  - destruct (f x start) as [q| |e] eqn:Hq; simpl; try discriminate.
    destruct (map_rows f xs (start + 1)) as [qs'| |e] eqn:Hqs; simpl;
      try discriminate.
    intros [= <-]. constructor.
    + apply (Hf x start q); [lia|exact Hq].
    + apply (IH (start + 1) qs'); [|exact Hqs].
      intros y i q' Hi. apply Hf. lia.
Qed.

Lemma map_rows_length {A} (f : A -> Z -> completion question)
  (xs : list A) (start : Z) (qs : list question) :
  map_rows f xs start = Normal qs -> List.length qs = List.length xs.
Proof.
  revert start qs. induction xs as [|x xs IH]; intros start qs; simpl.
  - now intros [= <-].
  - destruct (f x start) as [q| |e]; simpl; try discriminate.
    destruct (map_rows f xs (start + 1)) as [qs'| |e] eqn:Hqs; simpl;
      try discriminate.
    intros [= <-]. simpl. now rewrite (IH _ _ Hqs).
Qed.

Lemma has_text_true (q : question) :
  has_text q = Normal true ->
  exists text, question_text q = JStr text /\ trim text <> EmptyString.
Proof.
  unfold has_text. destruct (truthy (question_text q)); [|discriminate].
  destruct (question_text q) as [| | | |text| |]; simpl; try discriminate.
  intros [= H]. exists text. split; [reflexivity|].
  apply negb_true_iff in H. now apply String.eqb_neq.
Qed.

Lemma filter_text_kept (P : question -> Prop) (qs kept : list question) :
  Forall P qs ->
  filter_text qs = Normal kept ->
  Forall (fun q =>
            P q /\ exists text, question_text q = JStr text
                                /\ trim text <> EmptyString) kept
  /\ (List.length kept <= List.length qs)%nat.
Proof.
  intros HP. revert kept. induction HP as [|q qs Hq _ IH]; intros kept;
    simpl.
  - intros [= <-]. split; [apply Forall_nil|simpl; lia].
  - destruct (has_text q) as [keep| |e] eqn:Hk; simpl; try discriminate.
    destruct (filter_text qs) as [kept'| |e]; simpl; try discriminate.
    destruct (IH kept' eq_refl) as [IHk IHl].
    intros [= <-]. destruct keep.
    + split; [|simpl; lia]. constructor; [|exact IHk].
      split; [exact Hq|now apply has_text_true].
    + split; [exact IHk|lia].
Qed.

Lemma csv_type_cases (t : string) :
  In (csv_type t) ["mcq"; "short_answer"; "long_answer"].
Proof.
  unfold csv_type.
  destruct (t =? "mcq")%string; [simpl; auto|].
  destruct ((t =? "short")%string || (t =? "short_answer")%string);
    [simpl; auto|].
  destruct ((t =? "long")%string || (t =? "long_answer")%string);
    simpl; auto.
Qed.

Lemma excel_type_cases (t : string) :
  In (excel_type t) ["mcq"; "short_answer"; "long_answer"].
Proof.
  unfold excel_type.
  destruct ((t =? "mcq")%string || (t =? "multiple choice")%string);
    [simpl; auto|].
  destruct ((t =? "short")%string || (t =? "short answer")%string);
    [simpl; auto|].
  destruct ((t =? "long")%string || (t =? "long answer")%string);
    simpl; auto.
Qed.

Lemma json_type_cases (item : value) (t : string) :
  json_type item = Normal t ->
  In t ["mcq"; "short_answer"; "long_answer"].
Proof.
  unfold json_type.
  destruct (item_type item) as [t1| |e]; simpl; try discriminate.
  destruct (t1 =? "mcq")%string; [intros [= <-]; simpl; auto|].
  destruct (t1 =? "short_answer")%string; [intros [= <-]; simpl; auto|].
  destruct (t1 =? "long_answer")%string; intros [= <-]; simpl; auto.
Qed.

Lemma csv_row_typed qi ti ai mi indices line i q :
  0 <= i -> csv_row qi ti ai mi indices line i = Normal q -> typed q.
Proof.
  intros Hi. unfold csv_row.
  match goal with
  | |- cbind ?c _ = _ -> _ => destruct c as [t| |e]
  end; simpl; try discriminate.
  intros [= <-]. split; simpl; [apply csv_type_cases|lia].
Qed.

Lemma excel_row_typed row i q :
  0 <= i -> excel_row row i = Normal q -> typed q.
Proof.
  intros Hi. unfold excel_row.
  destruct (row_text row); simpl; try discriminate.
  destruct (row_type row); simpl; try discriminate.
  destruct (row_options row); simpl; try discriminate.
  destruct (row_answer row) as [ca| |e]; simpl; try discriminate.
  destruct (toString ca); simpl; try discriminate.
  match goal with
  | |- cbind ?c _ = _ -> _ => destruct c
  end; simpl; try discriminate.
  intros [= <-]. split; simpl; [apply excel_type_cases|lia].
Qed.

Lemma json_item_typed inArray item i q :
  0 <= i -> json_item inArray item i = Normal q -> typed q.
Proof.
  intros Hi. unfold json_item.
  destruct (item_text item); simpl; try discriminate.
  destruct (json_type item) as [t| |e] eqn:Ht; simpl; try discriminate.
  match goal with
  | |- cbind ?c _ = _ -> _ => destruct c
  end; simpl; try discriminate.
  destruct (item_answer item); simpl; try discriminate.
  match goal with
  | |- cbind ?c _ = _ -> _ => destruct c
  end; simpl; try discriminate.
  intros [= <-]. split; simpl; [now apply (json_type_cases item)|lia].
Qed.

Lemma json_rows_typed (jsonData : value) (rows : list question) :
  match jsonData with
  | JArr items => map_rows (json_item true) items 0
  | _ =>
      cbind (get jsonData "questions") (fun qs =>
      match qs with
      | JArr items => map_rows (json_item false) items 0
      | _ => Normal []
      end)
  end = Normal rows ->
  Forall typed rows.
Proof.
  assert (Hnil : @Normal (list question) [] = Normal rows ->
                 Forall typed rows)
    by (intros [= <-]; apply Forall_nil).
  assert (Hitems : forall inArray items,
             map_rows (json_item inArray) items 0 = Normal rows ->
             Forall typed rows).
  { intros inArray items H.
    apply (map_rows_Forall typed (json_item inArray) items 0 rows);
      [|exact H].
    intros x i q. apply json_item_typed. }
  destruct jsonData as [| |b|z|s|items|props]; cbn [get cbind];
    try discriminate; try exact Hnil; try apply Hitems.
  destruct (of_option (assoc "questions" props)) as [| | | | |items|];
    try exact Hnil. apply Hitems.
Qed.

Section Route.

Variable JSON_parse : string -> option value.

Lemma questions_of_typed (file : upload) (qs : list question) :
  questions_of JSON_parse file = Normal (inr qs) ->
  Forall well_imported qs.
Proof.
  assert (Hfin : forall rows kept,
             Forall typed rows -> filter_text rows = Normal kept ->
             Forall well_imported kept).
  { intros rows kept Hrows Hkept.
    destruct (filter_text_kept typed rows kept Hrows Hkept) as [H _].
    eapply Forall_impl; [|exact H].
    intros q [[Ht Hr] Htext]. now repeat split. }
  unfold questions_of.
  destruct ((fileExtension (originalname file) =? "xlsx")%string
            || (fileExtension (originalname file) =? "xls")%string).
  - destruct (sheet file) as [data| |e]; simpl; try discriminate.
    destruct (map_rows excel_row data 0) as [rows| |e] eqn:Hrows; simpl;
      try discriminate.
    destruct (filter_text rows) as [kept| |e] eqn:Hkept; simpl;
      try discriminate.
    intros [= <-]. apply (Hfin rows kept); [|exact Hkept].
    apply (map_rows_Forall typed excel_row data 0 rows); [|exact Hrows].
    intros x i q. apply excel_row_typed.
  - destruct (fileExtension (originalname file) =? "json")%string.
    + unfold json_questions.
      destruct (JSON_parse (content file)) as [jsonData|];
        [|discriminate].
      match goal with
      | |- cbind ?c _ = _ -> _ => destruct c as [rows| |e] eqn:Hrows
      end; simpl; try discriminate.
      destruct (filter_text rows) as [kept| |e] eqn:Hkept; simpl;
        try discriminate.
      intros [= <-]. apply (Hfin rows kept); [|exact Hkept].
      now apply (json_rows_typed jsonData).
    + destruct (fileExtension (originalname file) =? "csv")%string;
        [|discriminate].
      unfold csv_questions.
      match goal with
      | |- (if ?b then _ else _) = _ -> _ => destruct b
      end; [discriminate|].
      match goal with
      | |- cbind (map_rows ?f ?xs 0) _ = _ -> _ =>
          destruct (map_rows f xs 0) as [rows| |e] eqn:Hrows
      end; simpl; try discriminate.
      destruct (filter_text rows) as [kept| |e] eqn:Hkept; simpl;
        try discriminate.
      intros [= <-]. apply (Hfin rows kept); [|exact Hkept].
      eapply map_rows_Forall; [|exact Hrows].
      intros x i q. apply csv_row_typed.
Qed.

(** X17: whatever the format of the file, when the import answers with
    questions there is at least one, and each has a text that is not
    blank, one of the types [mcq], [short_answer] and [long_answer], and a
    row number from 1 on. *)
Theorem import_answers_well_formed_questions (file : option upload)
  (qs : list question) :
  import_route JSON_parse file = Sent qs ->
  qs <> [] /\ Forall well_imported qs.
Proof.
  unfold import_route. destruct file as [f|]; [|discriminate].
  destruct (questions_of JSON_parse f) as [[message|[|q rest]]| |e] eqn:Hq;
    try discriminate.
  intros [= <-]. split; [discriminate|].
  now apply (questions_of_typed f).
Qed.

End Route.

Lemma map_rows_range {A} (P : question -> Prop)
  (f : A -> Z -> completion question) (xs : list A) (start : Z)
  (qs : list question) :
  (forall x i q,
     start <= i < start + Z.of_nat (List.length xs) ->
     f x i = Normal q -> P q) ->
  map_rows f xs start = Normal qs ->
  Forall P qs.
Proof.
  revert start qs.
  induction xs as [|x xs IH]; intros start qs Hf; simpl.
  - intros [= <-]. apply Forall_nil.
  - destruct (f x start) as [q| |e] eqn:Hq; simpl; try discriminate.
    destruct (map_rows f xs (start + 1)) as [qs'| |e] eqn:Hqs; simpl;
      try discriminate.
    intros [= <-]. constructor.
    + apply (Hf x start q); [simpl List.length; lia|exact Hq].
    + apply (IH (start + 1) qs'); [|exact Hqs].
      intros y i q' Hi. apply Hf. simpl List.length. lia.
Qed.

Lemma option_values_nonblank (values : list string) (indices : list Z) :
  Forall (fun o => trim o <> EmptyString) (option_values values indices).
Proof.
  unfold option_values. apply Forall_forall. intros o Ho.
  apply in_flat_map in Ho as (i & _ & Ho).
  destruct (at_index values i) as [| | | |s| |]; try contradiction.
  destruct (truthy (JStr s) && nonblank s) eqn:Hk; [|contradiction].
  destruct Ho as [<-|[]]. apply andb_true_iff in Hk as [_ Hk].
  unfold nonblank in Hk. apply negb_true_iff in Hk.
  now apply String.eqb_neq.
Qed.

(** The options a CSV row may carry. *)
Lemma csv_row_options qi ti ai mi indices line i q :
  csv_row qi ti ai mi indices line i = Normal q ->
  row_number q = i + 2
  /\ (options q = JNull
      \/ (question_type q = "mcq"
          /\ exists os,
               options q = JArr (map JStr os)
               /\ os <> []
               /\ Forall (fun o => trim o <> EmptyString) os)).
Proof.
  unfold csv_row.
  match goal with
  | |- cbind ?c _ = _ -> _ => destruct c as [t| |e]
  end; simpl; try discriminate.
  intros [= <-]. simpl. split; [reflexivity|].
  destruct (t =? "mcq")%string eqn:Ht; simpl; [|now left].
  match goal with
  | |- context [option_values ?v ?ix] =>
      pose proof (option_values_nonblank v ix) as Hos;
      destruct (option_values v ix) as [|o os]
  end; simpl; [now left|].
  right. split.
  - unfold csv_type. now rewrite Ht.
  - exists (o :: os). repeat split; [discriminate|exact Hos].
Qed.

(** X18: in the questions read from a CSV file, the row number of a
    question is its position among the lines that are not blank, from 2
    for the first line after the header; a question carries options only
    when its type is [mcq], and then at least one, none of them blank.
    There are fewer questions than lines that are not blank. *)
Theorem csv_questions_shape (csvContent : string) (qs : list question) :
  csv_questions csvContent = Normal (inr qs) ->
  let lines := filter nonblank (split newline csvContent) in
  (List.length qs < List.length lines)%nat
  /\ Forall
       (fun q =>
          2 <= row_number q <= Z.of_nat (List.length lines)
          /\ (options q = JNull
              \/ (question_type q = "mcq"
                  /\ exists os,
                       options q = JArr (map JStr os)
                       /\ os <> []
                       /\ Forall (fun o => trim o <> EmptyString) os)))
       qs.
Proof.
  intros H. cbv zeta. unfold csv_questions in H. cbv zeta in H.
  set (lines := filter nonblank (split newline csvContent)) in *.
  clearbody lines.
  destruct (Z.ltb_spec (Z.of_nat (List.length lines)) 2) as [|Hlen];
    [discriminate|].
  match type of H with
  | cbind (map_rows ?f ?xs 0) _ = _ =>
      destruct (map_rows f xs 0) as [rows| |e] eqn:Hrows
  end; simpl in H; try discriminate.
  destruct (filter_text rows) as [kept| |e] eqn:Hkept; simpl in H;
    try discriminate.
  injection H as <-.
  assert (Htl : Z.of_nat (List.length (tl lines))
                = Z.of_nat (List.length lines) - 1).
  { clear Hrows. destruct lines as [|l ls]; [simpl in Hlen; lia|].
    cbn [tl List.length]. lia. }
  match type of Hrows with
  | map_rows ?f _ _ = _ =>
      pose proof (map_rows_range
                    (fun q =>
                       2 <= row_number q <= Z.of_nat (List.length lines)
                       /\ (options q = JNull
                           \/ (question_type q = "mcq"
                               /\ exists os,
                                    options q = JArr (map JStr os)
                                    /\ os <> []
                                    /\ Forall
                                         (fun o => trim o <> EmptyString)
                                         os)))
                    f (tl lines) 0 rows) as Hall
  end.
  assert (Hrows' : Forall
            (fun q =>
               2 <= row_number q <= Z.of_nat (List.length lines)
               /\ (options q = JNull
                   \/ (question_type q = "mcq"
                       /\ exists os,
                            options q = JArr (map JStr os)
                            /\ os <> []
                            /\ Forall (fun o => trim o <> EmptyString)
                                      os))) rows).
  { apply Hall; [|exact Hrows]. intros x i q Hi Hq.
    destruct (csv_row_options _ _ _ _ _ _ _ _ Hq) as [Hn Ho].
    split; [lia|exact Ho]. }
  destruct (filter_text_kept _ rows kept Hrows' Hkept) as [Hk Hl].
  split.
  - pose proof (map_rows_length _ _ _ _ Hrows) as Hlr.
    apply Nat2Z.inj_lt. lia.
  - eapply Forall_impl; [|exact Hk]. now intros q [Hq _].
Qed.

Lemma findIndex_none {A} (p : A -> bool) (xs : list A) (index : Z) :
  Forall (fun x => p x = false) xs -> findIndex p xs index = -1.
Proof.
  intros H. revert index. induction H as [|x xs Hx _ IH]; intros index;
    simpl; [reflexivity|]. now rewrite Hx.
Qed.

Lemma at_index_text (values : list string) (i : Z) :
  at_index values i = JUndefined \/ exists s, at_index values i = JStr s.
Proof.
  unfold at_index. destruct (i <? 0); [now left|].
  destruct (nth_error values (Z.to_nat i)); eauto.
Qed.

Lemma csv_row_without_question ti ai mi indices line i :
  exists q,
    csv_row (-1) ti ai mi indices line i = Normal q
    /\ question_text q = JStr EmptyString.
Proof.
  unfold csv_row. simpl (0 <=? -1).
  destruct (0 <=? ti).
  - match goal with
    | |- context [at_index ?v ti] =>
        destruct (at_index_text v ti) as [Hu|[s Hs]]
    end.
    + rewrite Hu. simpl. eauto.
    + rewrite Hs. destruct (truthy (JStr s)); simpl; eauto.
  - simpl. eauto.
Qed.

Lemma rows_without_question ti ai mi indices (lines : list string)
  (start : Z) :
  exists rows,
    map_rows (csv_row (-1) ti ai mi indices) lines start = Normal rows
    /\ filter_text rows = Normal [].
Proof.
  revert start. induction lines as [|line lines IH]; intros start; simpl.
  - exists []. now split.
  - destruct (csv_row_without_question ti ai mi indices line start)
      as (q & Hq & Htext).
    destruct (IH (start + 1)) as (rows & Hrows & Hnone).
    rewrite Hq, Hrows. simpl. exists (q :: rows). split; [reflexivity|].
    simpl. unfold has_text. rewrite Htext. simpl. now rewrite Hnone.
Qed.

(** X19: a CSV file none of whose headers contains the word [question],
    in any letter case, is refused with the status 400: no line of it
    becomes a question. *)
Theorem csv_without_question_column (JSON_parse : string -> option value)
  (file : upload) :
  fileExtension (originalname file) = "csv" ->
  Forall (fun h => header_has "question" h = false)
         (map trim
            (split ","
               (hd EmptyString
                  (filter nonblank (split newline (content file)))))) ->
  exists message, import_route JSON_parse (Some file) = Refused 400 message.
Proof.
  intros Hext Hheaders. unfold import_route, questions_of.
  rewrite Hext. simpl. unfold csv_questions.
  match goal with
  | |- context [if ?b then _ else _] => destruct b
  end; [eauto|].
  rewrite (findIndex_none _ _ 0 Hheaders).
  match goal with
  | |- context [map_rows (csv_row (-1) ?ti ?ai ?mi ?ix) ?ls 0] =>
      destruct (rows_without_question ti ai mi ix ls 0)
        as (rows & Hrows & Hnone);
      rewrite Hrows
  end.
  simpl. rewrite Hnone. simpl. eauto.
Qed.

End ImportFacts.

(** ** Quiz ids in the teacher routes *)

Lemma split_nonempty (c : ascii) (s : string) : ImportQuestions.split c s <> [].
Proof.
  induction s as [|a s IH]; simpl; [discriminate|].
  destruct (ImportQuestions.split c s); [contradiction|].
  destruct (Ascii.eqb a c); discriminate.
Qed.

Lemma split_head (c a : ascii) (s : string) :
  hd EmptyString (ImportQuestions.split c (String a s))
  = if Ascii.eqb a c then EmptyString
    else String a (hd EmptyString (ImportQuestions.split c s)).
Proof.
  simpl. pose proof (split_nonempty c s) as H.
  destruct (ImportQuestions.split c s); [contradiction|].
  destruct (Ascii.eqb a c); reflexivity.
Qed.

Lemma split_head_decimal (d : Decimal.uint) (t : string) :
  hd EmptyString
     (ImportQuestions.split ":" (NilEmpty.string_of_uint d ++ t))
  = NilEmpty.string_of_uint d
    ++ hd EmptyString (ImportQuestions.split ":" t).
Proof.
  induction d; cbn [NilEmpty.string_of_uint String.append];
    [reflexivity| ..]; rewrite split_head, IHd; reflexivity.
Qed.

Lemma append_empty (s : string) : s ++ EmptyString = s.
Proof. induction s as [|a s IH]; simpl; [reflexivity|now rewrite IH]. Qed.

Lemma split_head_Z_toString (n : Z) (t : string) :
  hd EmptyString (ImportQuestions.split ":" (Z_toString n ++ t))
  = Z_toString n ++ hd EmptyString (ImportQuestions.split ":" t).
Proof.
  unfold Z_toString. destruct n as [|p|p]; cbn [Z.to_int NilZero.string_of_int].
  - cbn [NilZero.string_of_uint NilEmpty.string_of_uint String.append].
    now rewrite split_head.
  - unfold NilZero.string_of_uint.
    pose proof (DecimalPos.Unsigned.to_uint_nonnil p) as Hn.
    destruct (Pos.to_uint p) eqn:Hd; [contradiction| ..];
      rewrite <- Hd; apply split_head_decimal.
  - unfold NilZero.string_of_uint.
    pose proof (DecimalPos.Unsigned.to_uint_nonnil p) as Hn.
    cbn [String.append]. rewrite split_head. cbn [Ascii.eqb].
    destruct (Pos.to_uint p) eqn:Hd; [contradiction| ..];
      rewrite <- Hd; simpl; now rewrite split_head_decimal.
Qed.

Lemma parseQuizId_Z_toString (n : Z) :
  parseQuizId (Z_toString n) = Some n.
Proof.
  unfold parseQuizId.
  rewrite <- (append_empty (Z_toString n)) at 1.
  rewrite split_head_Z_toString. simpl. rewrite append_empty.
  apply parseInt_Z_toString.
Qed.

(** X20: the teacher routes read the id of a quiz from the part of the
    path parameter before the first colon: the decimal text of an id that
    is a safe integer, alone or followed by a colon and anything, is read
    as that id. *)
Theorem quiz_id_survives_colon_suffix (n : Z) (suffix : string) :
  isSafeInteger n = true ->
  parseQuizId (Z_toString n) = Some n
  /\ parseQuizId (Z_toString n ++ String ":" suffix) = Some n.
Proof.
  intros _. unfold parseQuizId. split.
  - rewrite <- (append_empty (Z_toString n)) at 1.
    rewrite split_head_Z_toString. simpl. rewrite append_empty.
    apply parseInt_Z_toString.
  - rewrite split_head_Z_toString, split_head. simpl.
    rewrite append_empty. apply parseInt_Z_toString.
Qed.

Lemma quiz_id_witness :
  parseQuizId (Z_toString 12) = Some 12
  /\ parseQuizId (Z_toString 12 ++ String ":" "1") = Some 12.
Proof.
  apply (quiz_id_survives_colon_suffix 12 "1"). reflexivity.
Defined.

(** ** From the submit of a student to the analysis of the teacher *)

Lemma update_inserts_answers (now aid quiz : Z) (ans : value) (sc : Z)
  (pct : Q) (attempts : list Attempt) (a : Attempt) :
  NoDup (map attempt_id attempts) ->
  In a attempts ->
  attempt_id a = aid ->
  submitted a = false ->
  attempt_quiz_id a = quiz ->
  exists l1 l2,
    map answers
        (filter (fun x => (attempt_quiz_id x =? quiz) && submitted x)
                attempts)
    = (l1 ++ l2)%list
    /\ map answers
         (filter (fun x => (attempt_quiz_id x =? quiz) && submitted x)
            (map (fun x =>
                    if attempt_id x =? aid
                    then {| attempt_id := attempt_id x;
                            attempt_quiz_id := attempt_quiz_id x;
                            student_id := student_id x;
                            submitted_at := Some now;
                            score := sc; percentage := pct;
                            answers := ans |}
                    else x)
                 attempts))
       = (l1 ++ ans :: l2)%list.
Proof.
  intros Hnd Hin Hid Hsub Hquiz.
  induction attempts as [|x rest IH]; [contradiction|].
  simpl in Hnd. apply NoDup_cons_iff in Hnd as [Hx Hnd].
  destruct Hin as [->|Hin].
  - exists [], (map answers
                 (filter (fun x => (attempt_quiz_id x =? quiz)
                                   && submitted x) rest)).
    cbn [map].
    match goal with |- context [map ?f rest] =>
      assert (Hrest : map f rest = rest) end.
    { rewrite <- (map_id rest) at 2.
      apply map_ext_in. intros y Hy.
      destruct (Z.eqb_spec (attempt_id y) aid) as [Heq|]; [|reflexivity].
      exfalso. apply Hx. rewrite Hid, <- Heq. now apply in_map. }
    rewrite Hrest. cbn [filter].
    rewrite Hid, Z.eqb_refl, Hsub, andb_false_r.
    cbn [attempt_quiz_id submitted_at submitted].
    rewrite Hquiz, Z.eqb_refl. simpl. split; reflexivity.
  - destruct (IH Hnd Hin) as (l1 & l2 & H1 & H2).
    assert (Hne : (attempt_id x =? aid) = false).
    { apply Z.eqb_neq. intros Heq. apply Hx. rewrite Heq, <- Hid.
      now apply in_map. }
    simpl. rewrite Hne.
    destruct ((attempt_quiz_id x =? quiz) && submitted x); simpl.
    + exists (answers x :: l1), l2. rewrite H1, H2. now split.
    + exists l1, l2. now split.
Qed.

Section SubmitToAnalysis.

Variable JSON_parse : string -> option value.
Variable now : Z.

Lemma tallies_app question index (l1 l2 : list value) :
  tallies JSON_parse question index (l1 ++ l2)
  = tallies JSON_parse question index l1
    + tallies JSON_parse question index l2.
Proof. induction l1 as [|a l1 IH]; simpl; [reflexivity|]. lia. Qed.

Lemma submit_outcome_answers student id sent db quiz quizzes' row rows'
  q qs :
  truthy sent = true ->
  is_object sent = true ->
  select_quiz id db = quiz :: quizzes' ->
  select_enrollment student (subject_id quiz) db = row :: rows' ->
  open_for id student db = true ->
  select_questions id db = q :: qs ->
  attempt_ids_fresh db ->
  let db' := snd (run now (submit_route JSON_parse student id sent) db) in
  select_quiz id db' = quiz :: quizzes'
  /\ select_questions id db' = q :: qs
  /\ exists l1 l2,
       submitted_answers id db = (l1 ++ l2)%list
       /\ submitted_answers id db' = (l1 ++ sent :: l2)%list.
Proof.
  intros Ht Ho Hquiz Henr Hopen Hq [Hnd Hlt] db'.
  destruct (run_keeps_tables now
              (submit_route JSON_parse student id sent) db)
    as (T1 & _ & T3).
  fold db' in T1, T3.
  split; [unfold select_quiz; now rewrite T1|].
  split; [unfold select_questions; now rewrite T3|].
  assert (Hrun : exists aid db1 a,
            db' = update_attempt now aid sent
                    (totalScore JSON_parse (q :: qs) sent)
                    (percentageOf quiz
                       (totalScore JSON_parse (q :: qs) sent)) db1
            /\ In a (quiz_attempts db1)
            /\ attempt_id a = aid
            /\ attempt_quiz_id a = id
            /\ submitted a = false
            /\ NoDup (map attempt_id (quiz_attempts db1))
            /\ submitted_answers id db1 = submitted_answers id db).
  { unfold db', submit_route. rewrite Ht, Ho. simpl. rewrite Hquiz. simpl.
    rewrite Henr. simpl. unfold open_for in Hopen.
    destruct (select_attempts id student db) as [|a rest] eqn:Ha.
    - simpl. rewrite (insert_succeeds student id db Ha).
      destruct (insert_fresh student id db Ha) as (_ & Hnew & Hqs).
      rewrite (submit_grade_stores _ _ _ _ _ _ _ q qs)
        by (now rewrite Hqs).
      exists (auto_increment db), (snd (insert_attempt id student db)),
        (new_attempt (auto_increment db) id student).
      assert (Hatt : quiz_attempts (snd (insert_attempt id student db))
                     = (quiz_attempts db
                        ++ [new_attempt (auto_increment db) id student])
                         %list).
      { unfold insert_attempt.
        unfold select_attempts in Ha.
        now rewrite (filter_nil_existsb _ _ Ha). }
      split; [reflexivity|]. rewrite Hatt. repeat split.
      + apply in_or_app. right. now left.
      + rewrite map_app. simpl.
        apply NoDup_app; [exact Hnd|repeat constructor; auto|].
        intros x Hx [<-|[]]. apply in_map_iff in Hx as (y & Hy & Hin).
        rewrite Forall_forall in Hlt. specialize (Hlt y Hin). lia.
      + unfold submitted_answers. rewrite Hatt, filter_app. simpl.
        rewrite andb_false_r. now rewrite app_nil_r.
    - apply negb_true_iff in Hopen. rewrite Hopen.
      rewrite (submit_grade_stores _ _ _ _ _ _ _ q qs Hq).
      assert (Hin : In a (select_attempts id student db))
        by (rewrite Ha; now left).
      unfold select_attempts in Hin. apply filter_In in Hin as [Hin Hp].
      unfold for_pair in Hp. apply andb_true_iff in Hp as [Hp _].
      apply Z.eqb_eq in Hp.
      exists (attempt_id a), db, a. now repeat split. }
  destruct Hrun as (aid & db1 & a & Hdb' & Hin & Hid & Hqid & Hsub & Hnd1
                    & Hsame).
  destruct (update_inserts_answers now aid id sent
              (totalScore JSON_parse (q :: qs) sent)
              (percentageOf quiz (totalScore JSON_parse (q :: qs) sent))
              (quiz_attempts db1) a Hnd1 Hin Hid Hsub Hqid)
    as (l1 & l2 & H1 & H2).
  exists l1, l2. rewrite <- Hsame. split; [exact H1|].
  rewrite Hdb'. exact H2.
Qed.

(** X21: after a submit that is graded, the analysis of the quiz, asked by
    a teacher of its subject, counts one submitted attempt more than
    before, and for each question the number of correct answers grows by
    one exactly when the analysis counts the answers sent as correct. *)
Theorem analysis_counts_the_submission teacher student id sent
  (school : School) quiz quizzes' row rows' access others q qs :
  truthy sent = true ->
  is_object sent = true ->
  select_quiz id (school_db school) = quiz :: quizzes' ->
  select_enrollment student (subject_id quiz) (school_db school)
  = row :: rows' ->
  open_for id student (school_db school) = true ->
  select_questions id (school_db school) = q :: qs ->
  attempt_ids_fresh (school_db school) ->
  select_access teacher (subject_id quiz) school = access :: others ->
  let school' :=
    {| school_db :=
         snd (run now (submit_route JSON_parse student id sent)
                  (school_db school));
       teacher_subjects := teacher_subjects school |} in
  exists before after,
    analysis_route JSON_parse teacher (Z_toString id) school
    = Sent (mapi (analysis_row JSON_parse before) (q :: qs) 0%nat)
    /\ analysis_route JSON_parse teacher (Z_toString id) school'
       = Sent (mapi (analysis_row JSON_parse after) (q :: qs) 0%nat)
    /\ List.length after = S (List.length before)
    /\ forall question index,
         correctCount JSON_parse question index after
         = correctCount JSON_parse question index before
           + (if counted JSON_parse question index sent then 1 else 0).
Proof.
  intros Ht Ho Hquiz Henr Hopen Hq Hfresh Haccess school'.
  destruct (submit_outcome_answers student id sent (school_db school) quiz
              quizzes' row rows' q qs Ht Ho Hquiz Henr Hopen Hq Hfresh)
    as (Hquiz' & Hq' & l1 & l2 & Hb & Ha).
  exists (submitted_answers id (school_db school)),
    (submitted_answers id (school_db school')).
  pose proof (parseQuizId_Z_toString id) as Hid.
  split; [|split; [|split]].
  - unfold analysis_route. rewrite Hid, Hquiz, Haccess, Hq. reflexivity.
  - unfold analysis_route. rewrite Hid. simpl school_db.
    rewrite Hquiz'.
    change (select_access teacher (subject_id quiz) school')
      with (select_access teacher (subject_id quiz) school).
    rewrite Haccess, Hq'. reflexivity.
  - simpl school_db. rewrite Ha, Hb, !length_app. simpl. lia.
  - intros question index. rewrite !correctCount_tallies.
    simpl school_db. rewrite Ha, Hb, !tallies_app. simpl. lia.
Qed.

End SubmitToAnalysis.

(** ** The properties on the rows of the examples *)

Lemma index_as_correct_answer_witness :
  grade_question Json.read padded capital_decoded 0%nat 0
  = (Normal tt, 0 + marks capital_decoded).
Proof.
  apply (index_as_correct_answer Json.read padded capital_decoded 0%nat
           (JStr " PARIS ") " PARIS " ["Paris"; "London"; "Berlin"] 0%nat
           "Paris");
    try reflexivity.
  vm_compute. discriminate.
Defined.

Lemma grading_ignores_case_witness :
  grade_question Json.read padded capital_decoded 0%nat 0
  = grade_question Json.read plain capital_decoded 0%nat 0.
Proof.
  apply (grading_ignores_case_and_padding Json.read padded plain
           capital_decoded 0%nat " PARIS " "paris");
    reflexivity.
Defined.

Lemma plain_question_witness :
  (awarded Json.read both second 1%nat = true
   <-> trim " seine" <> EmptyString
       /\ toLowerCase (trim " seine") = "seine")
  /\ forall total,
       grade_question Json.read both second 1%nat total
       = (Normal tt,
          total + if awarded Json.read both second 1%nat
                  then marks second else 0).
Proof.
  apply (plain_question_exact_match Json.read both second 1%nat
           (JStr " seine") " seine" "seine");
    try reflexivity.
  left. discriminate.
Defined.

Lemma submit_stores_witness :
  let sc := totalScore Json.read [capital_decoded; second] both in
  let pct := percentageOf open_quiz sc in
  let db' := snd (run 100 (submit_route Json.read 5 1 both) open_db) in
  fst (run 100 (submit_route Json.read 5 1 both) open_db)
  = Json (Submitted sc (total_marks open_quiz) pct)
  /\ (exists stored rest,
        select_attempts 1 5 db' = stored :: rest
        /\ submitted_at stored = Some 100
        /\ score stored = sc
        /\ percentage stored = pct
        /\ answers stored = both)
  /\ run 100 (start_route 5 1) db'
     = (Status 403 "You have already submitted this quiz", db')
  /\ (forall sent',
        truthy sent' = true -> is_object sent' = true ->
        run 100 (submit_route Json.read 5 1 sent') db'
        = (Status 403 "Quiz already submitted", db')).
Proof.
  apply (submit_stores_and_locks Json.read 100 5 1 both open_db open_quiz []
           (5, 7) [] capital_decoded [second]);
    reflexivity.
Defined.

Lemma first_entry_witness :
  let db1 := snd (insert_attempt 1 5 open_db) in
  let created := new_attempt (auto_increment open_db) 1 5 in
  run 100 (start_route 5 1) open_db
  = (Json (Started (auto_increment open_db)), db1)
  /\ run 100 (start_route 5 1) db1 = (Json (Resuming created), db1)
  /\ (forall q qs,
        is_active open_quiz = true ->
        not_started open_quiz 100 = false ->
        ended open_quiz 100 = false ->
        select_questions 1 open_db = q :: qs ->
        snd (run 100 (details_route Json.read 100 5 1) open_db) = db1
        /\ run 100 (details_route Json.read 100 5 1) db1
           = (Json (QuizDetails open_quiz created
                      (map (questionForStudent Json.read) (q :: qs))),
              db1)).
Proof.
  apply (first_entry_then_resume Json.read 100 5 1 open_db open_quiz []
           (5, 7) []);
    reflexivity.
Defined.

Lemma details_without_questions_witness :
  run 100 (details_route Json.read 100 5 1) empty_db
  = (Status 400 "No questions found for this quiz",
     snd (insert_attempt 1 5 empty_db))
  /\ select_attempts 1 5 (snd (insert_attempt 1 5 empty_db))
     = [new_attempt (auto_increment empty_db) 1 5]
  /\ snd (insert_attempt 1 5 empty_db) <> empty_db.
Proof.
  apply (details_without_questions_keeps_new_attempt Json.read 100 5 1
           empty_db open_quiz [] (5, 7) []);
    reflexivity.
Defined.

Lemma details_questions_witness :
  let sent := map (questionForStudent Json.read) [capital_decoded; second] in
  Forall (fun q => correct_answer q = JUndefined) sent
  /\ map question_id sent = map question_id (select_questions 1 open_db)
  /\ map marks sent = map marks (select_questions 1 open_db)
  /\ map question_type sent
     = map question_type (select_questions 1 open_db).
Proof.
  apply (details_never_sends_correct_answers Json.read 100 5 1 open_db
           open_quiz
           {| attempt_id := 1; attempt_quiz_id := 1; student_id := 5;
              submitted_at := None; score := 0; percentage := 0%Q;
              answers := JUndefined |}
           (map (questionForStudent Json.read) [capital_decoded; second])).
  reflexivity.
Defined.

Lemma available_quizzes_witness :
  exists rows,
    available_route 100 5 7 graded_db = Sent rows
    /\ (forall q,
          In q (map listed_quiz rows)
          <-> In q (quizzes graded_db) /\ subject_id q = 7
              /\ is_active q = true
              /\ not_started q 100 = false /\ ended q 100 = false)
    /\ Forall
         (fun r =>
            attempted r && in_progress r = false
            /\ (attempted r || in_progress r = true ->
                exists a,
                  In a (select_attempts (quiz_id (listed_quiz r)) 5
                          graded_db)
                  /\ attempted r = submitted a
                  /\ in_progress r = negb (submitted a)
                  /\ my_score r = Some (score a)
                  /\ my_percentage r = Some (percentage a)))
         rows.
Proof.
  apply (available_quizzes_listed 100 5 7 graded_db).
  discriminate.
Defined.

Lemma submitted_score_witness :
  let sc := totalScore Json.read [capital_decoded; second] both in
  let db' := snd (run 100 (submit_route Json.read 5 1 both) open_db) in
  In {| scored_quiz := open_quiz; scored_score := sc;
        scored_percentage := percentageOf open_quiz sc; scored_at := 100 |}
     (scores_route 5 db').
Proof.
  apply (submitted_score_is_listed Json.read 100 5 1 both open_db open_quiz
           [] (5, 7) [] capital_decoded [second]);
    reflexivity.
Defined.

Lemma import_witness :
  csv_imported <> [] /\ Forall well_imported csv_imported.
Proof.
  apply (ImportFacts.import_answers_well_formed_questions Json.read
           (Some csv_file) csv_imported).
  vm_compute. reflexivity.
Defined.

Lemma csv_questions_witness :
  let lines :=
    filter ImportQuestions.nonblank
      (ImportQuestions.split ImportQuestions.newline
         (ImportQuestions.content csv_file)) in
  (List.length csv_imported < List.length lines)%nat
  /\ Forall
       (fun q =>
          2 <= ImportQuestions.row_number q <= Z.of_nat (List.length lines)
          /\ (ImportQuestions.options q = JNull
              \/ (ImportQuestions.question_type q = "mcq"
                  /\ exists os,
                       ImportQuestions.options q = JArr (map JStr os)
                       /\ os <> []
                       /\ Forall (fun o => trim o <> EmptyString) os)))
       csv_imported.
Proof.
  apply (ImportFacts.csv_questions_shape (ImportQuestions.content csv_file)
           csv_imported).
  vm_compute. reflexivity.
Defined.

Lemma csv_without_question_witness :
  exists message,
    ImportQuestions.import_route Json.read (Some csv_without_header)
    = Refused 400 message.
Proof.
  apply (ImportFacts.csv_without_question_column Json.read
           csv_without_header).
  - reflexivity.
  - repeat (apply Forall_cons; [reflexivity|]). apply Forall_nil.
Defined.

Lemma analysis_counts_witness :
  let school' :=
    {| school_db := snd (run 100 (submit_route Json.read 5 1 both) open_db);
       teacher_subjects := teacher_subjects open_school |} in
  exists before after,
    analysis_route Json.read 9 (Z_toString 1) open_school
    = Sent (mapi (analysis_row Json.read before)
                 [capital_decoded; second] 0%nat)
    /\ analysis_route Json.read 9 (Z_toString 1) school'
       = Sent (mapi (analysis_row Json.read after)
                    [capital_decoded; second] 0%nat)
    /\ List.length after = S (List.length before)
    /\ forall question index,
         correctCount Json.read question index after
         = correctCount Json.read question index before
           + (if counted Json.read question index both then 1 else 0).
Proof.
  apply (analysis_counts_the_submission Json.read 100 9 5 1 both open_school
           open_quiz [] (5, 7) [] (9, 7) [] capital_decoded [second]);
    try reflexivity.
  split; [apply NoDup_nil|apply Forall_nil].
Defined.
